(** * ChatGPT Dictation Auto-Send: the options page

    A shallow embedding of the options controller (options.ts) and of the
    settings model (settings.ts), with the properties of the storage
    fallback, of the normalization of stored settings, of the hint text and
    of the binding between the form and the persisted record. *)

From stdpp Require Import base option strings list gmap fin_maps.

Local Open Scope string_scope.

(** ** JavaScript values

    The values the controller meets behind the type [unknown]: what the host
    hands back from storage, what it leaves in [chrome.runtime.lastError] and
    what a failing call throws.  Numbers only matter through their [typeof]
    tag and their truthiness, so an integer stands for them; an object other
    than an [Error] is a reference. *)

Inductive JsVal : Type :=
  | VUndefined
  | VNull
  | VBool (b : bool)
  | VNumber (n : Z)
  | VString (s : string)
  | VError (message : string)
  | VObject (ref : nat).

(** [typeof v] *)
Definition typeof (v : JsVal) : string :=
  match v with
  | VUndefined => "undefined"
  | VNull => "object"
  | VBool _ => "boolean"
  | VNumber _ => "number"
  | VString _ => "string"
  | VError _ => "object"
  | VObject _ => "object"
  end.

(** [Boolean(v)], the test of [if (v)] and of [!v]. *)
Definition truthy (v : JsVal) : bool :=
  match v with
  | VUndefined => false
  | VNull => false
  | VBool b => b
  | VNumber n => negb (Z.eqb n 0)
  | VString s => negb (String.eqb s "")
  | VError _ => true
  | VObject _ => true
  end.

(** [v ?? d] *)
Definition nullish (v d : JsVal) : JsVal :=
  match v with
  | VUndefined => d
  | VNull => d
  | _ => v
  end.

(** A [Record<string, unknown>]: a flat object used as a mapping from
    property names to values. *)
Abbreviation JsRecord := (gmap string JsVal).

(** [data.key]: reading a property that the object does not have gives
    [undefined]. *)
Definition prop (data : JsRecord) (key : string) : JsVal :=
  default VUndefined (data !! key).

(** ** Settings model (settings.ts) *)

Record Settings : Type := mkSettings {
  skipKey : string;
  holdToSend : bool;
  autoExpandChats : bool;
  autoTempChat : bool;
  tempChatEnabled : bool
}.

Definition SETTINGS_DEFAULTS : Settings := {|
  skipKey := "Shift";
  holdToSend := false;
  autoExpandChats := true;
  autoTempChat := false;
  tempChatEnabled := false
|}.

(** The interface [Settings] is structural: a value of it is the object with
    these five properties, and the code passes one wherever a
    [Record<string, unknown>] (or the keys of a storage read) is expected. *)
Definition settingsRecord (s : Settings) : JsRecord :=
  <["skipKey" := VString (skipKey s)]>
  (<["holdToSend" := VBool (holdToSend s)]>
  (<["autoExpandChats" := VBool (autoExpandChats s)]>
  (<["autoTempChat" := VBool (autoTempChat s)]>
  (<["tempChatEnabled" := VBool (tempChatEnabled s)]> ∅)))).

(** The names of the five settings. *)
Definition settingsKeys : gset string :=
  {[ "skipKey"; "holdToSend"; "autoExpandChats"; "autoTempChat"; "tempChatEnabled" ]}.

(** ** Normalization *)

(** The argument of [normalizeSettings]:
    [Record<string, unknown> | null | undefined]. *)
Inductive RawSettings : Type :=
  | RawUndefined
  | RawNull
  | RawRecord (data : JsRecord).

(** [typeof v === "string" ? v : d] *)
Definition stringOr (v : JsVal) (d : string) : string :=
  match v with
  | VString s => s
  | _ => d
  end.

(** [typeof v === "boolean" ? v : d] *)
Definition booleanOr (v : JsVal) (d : bool) : bool :=
  match v with
  | VBool b => b
  | _ => d
  end.

(** [value ?? {}] *)
Definition orEmpty (value : RawSettings) : JsRecord :=
  match value with
  | RawRecord data => data
  | RawNull => ∅
  | RawUndefined => ∅
  end.

Definition normalizeSettings (value : RawSettings) : Settings :=
  let base := SETTINGS_DEFAULTS in
  let data := orEmpty value in
  {| skipKey := stringOr (prop data "skipKey") (skipKey base);
     holdToSend := booleanOr (prop data "holdToSend") (holdToSend base);
     autoExpandChats := booleanOr (prop data "autoExpandChats") (autoExpandChats base);
     autoTempChat := booleanOr (prop data "autoTempChat") (autoTempChat base);
     tempChatEnabled := booleanOr (prop data "tempChatEnabled") (tempChatEnabled base) |}.

(** ** The page

    The three kinds of element the controller reaches by identifier are
    read and written through three properties; [mustGetElement] casts what
    it finds without a check, so one record carries the three. *)

Record Element : Type := mkElement {
  textContent : string;
  value : string;
  checked : bool
}.

(** The document, as far as [getElementById] sees it. *)
Abbreviation Document := (gmap string Element).

(** The outcome of synchronous code: a value, or a thrown value. *)
Inductive Completion (A : Type) : Type :=
  | Normal (a : A)
  | Throw (e : JsVal).
Arguments Normal {A} a.
Arguments Throw {A} e.

#[global] Instance Completion_ret : MRet Completion := λ A a, Normal a.
#[global] Instance Completion_bind : MBind Completion := λ A B f c,
  match c with
  | Normal a => f a
  | Throw e => Throw e
  end.

Definition mustGetElement (document : Document) (id : string) : Completion Element :=
  match document !! id with
  | None => Throw (VError ("Missing element: " ++ id))
  | Some el => Normal el
  end.

(** The five module-level constants. *)
Record Page : Type := mkPage {
  hintEl : Element;
  selectEl : Element;
  holdEl : Element;
  autoExpandEl : Element;
  autoTempChatEl : Element
}.

(** The identifiers the module looks up, in the order it does. *)
Definition requiredIds : list string :=
  ["hint"; "skipKey"; "holdToSend"; "autoExpandChats"; "autoTempChat"].

Definition getElements (document : Document) : Completion Page :=
  hintEl ← mustGetElement document "hint";
  selectEl ← mustGetElement document "skipKey";
  holdEl ← mustGetElement document "holdToSend";
  autoExpandEl ← mustGetElement document "autoExpandChats";
  autoTempChatEl ← mustGetElement document "autoTempChat";
  mret (mkPage hintEl selectEl holdEl autoExpandEl autoTempChatEl).

Definition setTextContent (s : string) (el : Element) : Element :=
  {| textContent := s; value := value el; checked := checked el |}.
Definition setValue (s : string) (el : Element) : Element :=
  {| textContent := textContent el; value := s; checked := checked el |}.
Definition setChecked (b : bool) (el : Element) : Element :=
  {| textContent := textContent el; value := value el; checked := b |}.

(** ** Hint text *)

(** The string [setHint] computes. *)
Definition hintText (skipKey : string) (holdToSend : bool) : string :=
  if String.eqb skipKey "None" then
    if holdToSend
    then "Auto-send is disabled because no modifier key is selected."
    else "Auto-send always happens when you accept dictation."
  else
    if holdToSend
    then "Auto-send happens only while holding " ++ skipKey ++ " when you accept dictation."
    else "Hold " ++ skipKey ++ " while accepting dictation to skip auto-send.".

(** [setHint] on the page: only [hintEl.textContent] is assigned. *)
Definition setHint (skipKey : string) (holdToSend : bool) (p : Page) : Page :=
  {| hintEl := setTextContent (hintText skipKey holdToSend) (hintEl p);
     selectEl := selectEl p;
     holdEl := holdEl p;
     autoExpandEl := autoExpandEl p;
     autoTempChatEl := autoTempChatEl p |}.

(** ** The host

    A storage area is an object of the host; the code only ever holds a
    reference to it, and the same object can be reached twice. *)

Record StorageAreaLike : Type := mkArea { areaRef : nat }.

Record StorageApi : Type := mkStorageApi {
  sync : option StorageAreaLike;
  local : option StorageAreaLike
}.

(** The global [browser]: [{ storage?: StorageApi }]. *)
Record BrowserGlobal : Type := mkBrowser {
  browser_storage : option StorageApi
}.

(** The global [chrome]: [{ runtime?: { lastError?: unknown }; storage?: StorageApi }].
    What [lastError] holds changes from one completion to the next, so the
    record only says whether [chrome.runtime] is there. *)
Record ChromeGlobal : Type := mkChrome {
  chrome_runtime : bool;
  chrome_storage : option StorageApi
}.

(** A call the code makes on a storage area, with its first argument. *)
Inductive Call : Type :=
  | CallGet (area : StorageAreaLike) (keys : JsRecord)
  | CallSet (area : StorageAreaLike) (values : JsRecord).

(** How the host answers one call of [area.get(keys, cb)] or
    [area.set(values, cb)].  The promise that [tryGet] and [trySet] build
    settles at the first call of [resolve] or [reject] and ignores the later
    ones, so an answer is the first thing the host does that reaches one of
    them: it runs the callback (with some value in [chrome.runtime.lastError]
    at that moment), the call throws, the thenable it returned is fulfilled
    or rejected, or none of these ever happens. *)
Inductive Reply (R : Type) : Type :=
  | ReplyCallback (res : R) (lastError : JsVal)
  | ReplyThrow (e : JsVal)
  | ReplyFulfil (res : R)
  | ReplyReject (e : JsVal)
  | ReplySilent.
Arguments ReplyCallback {R} res lastError.
Arguments ReplyThrow {R} e.
Arguments ReplyFulfil {R} res.
Arguments ReplyReject {R} e.
Arguments ReplySilent {R}.

(** The environment the script runs in.  Both globals are declared
    ([declare const]), so each is a binding: [None] is a binding that holds
    [undefined], never a missing binding.  A page where [chrome] is not bound
    at all, on which the bare [chrome] of [getStorageArea] and the
    [chrome?.runtime] of the callbacks would throw a [ReferenceError], is not
    a host of this model.  The host answers a call knowing the calls made
    before it, so an area can hold data, fail once and then work, and so
    on. *)
Record Host : Type := mkHost {
  browser : option BrowserGlobal;
  chrome : option ChromeGlobal;
  onGet : list Call → StorageAreaLike → JsRecord → Reply JsRecord;
  onSet : list Call → StorageAreaLike → JsRecord → Reply unit
}.

(** ** Asynchronous code

    The state is the page and the calls made on the host so far, oldest
    first.  An [async] function ends fulfilled or rejected, or never ends
    when it awaits a promise that never settles. *)

Record World : Type := mkWorld {
  page : Page;
  calls : list Call
}.

Inductive Outcome (A : Type) : Type :=
  | Fulfilled (a : A)
  | Rejected (e : JsVal)
  | Pending.
Arguments Fulfilled {A} a.
Arguments Rejected {A} e.
Arguments Pending {A}.

Definition Async (A : Type) : Type := World → Outcome A * World.

#[global] Instance Async_ret : MRet Async := λ A a w, (Fulfilled a, w).
#[global] Instance Async_bind : MBind Async := λ A B f c w,
  match c w with
  | (Fulfilled a, w') => f a w'
  | (Rejected e, w') => (Rejected e, w')
  | (Pending, w') => (Pending, w')
  end.

(** [try { body } catch { handler }] around awaited code. *)
Definition tryCatch {A : Type} (body : Async A) (handler : JsVal → Async A) : Async A :=
  λ w,
    match body w with
    | (Rejected e, w') => handler e w'
    | r => r
    end.

(** [promise.catch(() => {})] *)
Definition swallow {A : Type} (c : Async A) : Async unit :=
  tryCatch (_ ← c; mret tt) (λ _, mret tt).

Definition getPage : Async Page := λ w, (Fulfilled (page w), w).
Definition modifyPage (f : Page → Page) : Async unit :=
  λ w, (Fulfilled tt, mkWorld (f (page w)) (calls w)).

(** ** Storage access *)

Definition toError (err : JsVal) (fallback : string) : JsVal :=
  match err with
  | VError _ => err
  | _ => VError fallback
  end.

(** The constant [storage] of [getStorageArea]: the [storage] of [browser]
    when [typeof browser] is not ["undefined"], of [chrome] otherwise, and
    [null] when there is none. *)
Definition hostStorage (h : Host) : option StorageApi :=
  let api : option (option StorageApi) :=
    match browser h with
    | Some b => Some (browser_storage b)
    | None => chrome_storage <$> chrome h
    end in
  match api with
  | Some (Some storage) => Some storage
  | _ => None
  end.

Definition getStorageArea (h : Host) (preferSync : bool) : option StorageAreaLike :=
  match hostStorage h with
  | None => None
  | Some storage =>
      match preferSync, sync storage with
      | true, Some area => Some area
      | _, _ => local storage
      end
  end.

(** [chrome?.runtime?.lastError ?? null], read inside a completion callback
    while the host has [lastError] in [chrome.runtime.lastError].  The
    binding [chrome] is there; [?.] covers the case where it holds
    [undefined] and the case where it has no [runtime]. *)
Definition readLastError (h : Host) (lastError : JsVal) : JsVal :=
  match chrome h with
  | Some c => if chrome_runtime c then nullish lastError VNull else VNull
  | None => VNull
  end.

(** How the promise of [tryGet] or [trySet] settles on an answer of the host. *)
Definition settle {R : Type} (h : Host) (fallback : string) (r : Reply R) : Outcome R :=
  match r with
  | ReplyCallback res lastError =>
      let err := readLastError h lastError in
      if truthy err then Rejected (toError err fallback) else Fulfilled res
  | ReplyThrow e => Rejected (toError e fallback)
  | ReplyFulfil res => Fulfilled res
  | ReplyReject e => Rejected e
  | ReplySilent => Pending
  end.

Definition tryGet (h : Host) (keys : JsRecord) (area : StorageAreaLike) : Async JsRecord :=
  λ w,
    (settle h "Storage get failed" (onGet h (calls w) area keys),
     mkWorld (page w) (calls w ++ [CallGet area keys])).

Definition trySet (h : Host) (obj : JsRecord) (area : StorageAreaLike) : Async unit :=
  λ w,
    (settle h "Storage set failed" (onSet h (calls w) area obj),
     mkWorld (page w) (calls w ++ [CallSet area obj])).

Definition storageGet (h : Host) (keys : JsRecord) : Async JsRecord :=
  let areaSync := getStorageArea h true in
  let areaLocal := getStorageArea h false in
  early ← tryCatch
    (match areaSync with
     | Some area => res ← tryGet h keys area; mret (Some res)
     | None => mret None
     end)
    (λ _, mret None);
  match early with
  | Some res => mret res
  | None =>
      match areaLocal with
      | Some area => tryGet h keys area
      | None => mret ∅
      end
  end.

Definition storageSet (h : Host) (obj : JsRecord) : Async unit :=
  let areaSync := getStorageArea h true in
  let areaLocal := getStorageArea h false in
  syncOk ← tryCatch
    (match areaSync with
     | Some area => _ ← trySet h obj area; mret true
     | None => mret false
     end)
    (λ _, mret false);
  match negb syncOk, areaLocal with
  | true, Some area => trySet h obj area
  | _, _ => mret tt
  end.

(** ** Controller *)

Definition load (h : Host) : Async unit :=
  data ← storageGet h (settingsRecord SETTINGS_DEFAULTS);
  let settings := normalizeSettings (RawRecord data) in
  _ ← modifyPage (λ p, mkPage (hintEl p) (setValue (skipKey settings) (selectEl p))
                         (holdEl p) (autoExpandEl p) (autoTempChatEl p));
  _ ← modifyPage (λ p, mkPage (hintEl p) (selectEl p)
                         (setChecked (holdToSend settings) (holdEl p))
                         (autoExpandEl p) (autoTempChatEl p));
  _ ← modifyPage (λ p, mkPage (hintEl p) (selectEl p) (holdEl p)
                         (setChecked (autoExpandChats settings) (autoExpandEl p))
                         (autoTempChatEl p));
  _ ← modifyPage (λ p, mkPage (hintEl p) (selectEl p) (holdEl p) (autoExpandEl p)
                         (setChecked (autoTempChat settings) (autoTempChatEl p)));
  modifyPage (setHint (skipKey settings) (holdToSend settings)).

(** The object literal [save] hands to [storageSet]. *)
Definition savePayload (skipKey : string) (holdToSend autoExpandChats autoTempChat : bool)
  : JsRecord :=
  <["skipKey" := VString skipKey]>
  (<["holdToSend" := VBool holdToSend]>
  (<["autoExpandChats" := VBool autoExpandChats]>
  (<["autoTempChat" := VBool autoTempChat]>
  (<["tempChatEnabled" := VBool autoTempChat]> ∅)))).

Definition save (h : Host) : Async unit :=
  p ← getPage;
  let skipKey := value (selectEl p) in
  let holdToSend := negb (negb (checked (holdEl p))) in
  let autoExpandChats := negb (negb (checked (autoExpandEl p))) in
  let autoTempChat := negb (negb (checked (autoTempChatEl p))) in
  _ ← storageSet h (savePayload skipKey holdToSend autoExpandChats autoTempChat);
  modifyPage (setHint skipKey holdToSend).

(** The [change] listener bound to each of the four controls. *)
Definition onChange (h : Host) : Async unit := swallow (save h).

(** The module body: look the elements up, bind the listeners (they run
    only on later events), start the first load. *)
Definition main (h : Host) (document : Document) : Completion (Outcome unit * World) :=
  p ← getElements document;
  mret (swallow (load h) (mkWorld p [])).

(** ** Statements of the specification *)

(** What the specification asks of a normalized field: the raw value when
    its type is the expected one, the default otherwise. *)
Definition stringFieldOk (raw : JsVal) (d result : string) : Prop :=
  (typeof raw = "string" ∧ VString result = raw) ∨
  (typeof raw ≠ "string" ∧ result = d).

Definition booleanFieldOk (raw : JsVal) (d result : bool) : Prop :=
  (typeof raw = "boolean" ∧ VBool result = raw) ∨
  (typeof raw ≠ "boolean" ∧ result = d).

(** The raw value of a field, as the caller of [normalizeSettings] sees
    it: the property of the record it passed, [undefined] when the record
    lacks it or when there is no record. *)
Definition rawField (value : RawSettings) (key : string) : JsVal :=
  match value with
  | RawRecord data =>
      match data !! key with
      | Some v => v
      | None => VUndefined
      end
  | RawNull => VUndefined
  | RawUndefined => VUndefined
  end.

(** [e] is what a failure value [v] is turned into before it is handed to
    [reject]: [v] itself when it is an [Error], a fresh [Error] with the
    fallback message otherwise. *)
Definition madeError (v e : JsVal) (fallback : string) : Prop :=
  (∃ message, v = VError message ∧ e = v) ∨
  ((∀ message, v ≠ VError message) ∧ e = VError fallback).

(** A record that has every one of the five properties with its type. *)
Record wellTyped (o : JsRecord) : Prop := mkWellTyped {
  wt_skipKey : typeof (prop o "skipKey") = "string";
  wt_holdToSend : typeof (prop o "holdToSend") = "boolean";
  wt_autoExpandChats : typeof (prop o "autoExpandChats") = "boolean";
  wt_autoTempChat : typeof (prop o "autoTempChat") = "boolean";
  wt_tempChatEnabled : typeof (prop o "tempChatEnabled") = "boolean"
}.

(** A record whose properties are exactly the five settings, each with its
    type: a complete, correctly typed [Settings] value. *)
Definition isSettings (o : JsRecord) : Prop :=
  dom o = settingsKeys ∧ wellTyped o.

(** The claim as the specification has it: the storage of the one global
    that carries a storage object is the storage used. *)
Definition onlyCarrier (h : Host) (st : StorageApi) : Prop :=
  (browser h ≫= browser_storage = Some st ∧ chrome h ≫= chrome_storage = None) ∨
  (browser h ≫= browser_storage = None ∧ chrome h ≫= chrome_storage = Some st).

(** What [load] leaves on the page for given settings. *)
Definition shown (s : Settings) (p : Page) : Page :=
  mkPage (setTextContent (hintText (skipKey s) (holdToSend s)) (hintEl p))
    (setValue (skipKey s) (selectEl p))
    (setChecked (holdToSend s) (holdEl p))
    (setChecked (autoExpandChats s) (autoExpandEl p))
    (setChecked (autoTempChat s) (autoTempChatEl p)).

(** ** Hosts to run the code on *)

Definition syncArea : StorageAreaLike := mkArea 1.
Definition localArea : StorageAreaLike := mkArea 2.

Definition twoAreas : StorageApi := mkStorageApi (Some syncArea) (Some localArea).
Definition localOnly : StorageApi := mkStorageApi None (Some localArea).
Definition syncOnly : StorageApi := mkStorageApi (Some syncArea) None.

(** What the end-to-end scenario has in storage. *)
Definition storedAlt : JsRecord :=
  <["skipKey" := VString "Alt"]> (<["holdToSend" := VBool true]> ∅).

(** The page before the script touches it. *)
Definition blankElement : Element := mkElement "" "" false.
Definition blankPage : Page :=
  mkPage blankElement blankElement blankElement blankElement blankElement.
Definition blankWorld : World := mkWorld blankPage [].

(** A Chromium-like host: only [chrome], callbacks, both areas working and
    holding [storedAlt]. *)
Definition chromiumHost : Host :=
  mkHost None (Some (mkChrome true (Some twoAreas)))
    (λ _ _ _, ReplyCallback storedAlt VUndefined)
    (λ _ _ _, ReplyCallback tt VUndefined).

(** A Firefox-like host: [browser] and [chrome] both there, promises. *)
Definition firefoxHost : Host :=
  mkHost (Some (mkBrowser (Some twoAreas))) (Some (mkChrome true (Some localOnly)))
    (λ _ _ _, ReplyFulfil storedAlt)
    (λ _ _ _, ReplyFulfil tt).

(** Every operation of every area completes with [chrome.runtime.lastError]
    set (a quota error, say). *)
Definition failingHost : Host :=
  mkHost None (Some (mkChrome true (Some twoAreas)))
    (λ _ _ _, ReplyCallback ∅ (VObject 0))
    (λ _ _ _, ReplyCallback tt (VObject 0)).

(** The synced area throws, the local one works. *)
Definition syncDownHost : Host :=
  mkHost None (Some (mkChrome true (Some twoAreas)))
    (λ _ area _, if Nat.eqb (areaRef area) 1
                 then ReplyThrow (VError "sync is disabled")
                 else ReplyCallback storedAlt VUndefined)
    (λ _ area _, if Nat.eqb (areaRef area) 1
                 then ReplyThrow (VError "sync is disabled")
                 else ReplyCallback tt VUndefined).

(** The synced area rejects and there is no local area. *)
Definition syncOnlyDownHost : Host :=
  mkHost None (Some (mkChrome true (Some syncOnly)))
    (λ _ _ _, ReplyReject (VError "sync is disabled"))
    (λ _ _ _, ReplyReject (VError "sync is disabled")).

(** Only a local area, whose first operation fails and whose later ones
    work. *)
Definition flakyLocalHost : Host :=
  mkHost None (Some (mkChrome true (Some localOnly)))
    (λ history _ _, match history with
                    | [] => ReplyReject (VError "busy")
                    | _ => ReplyCallback storedAlt VUndefined
                    end)
    (λ history _ _, match history with
                    | [] => ReplyReject (VError "busy")
                    | _ => ReplyCallback tt VUndefined
                    end).

(** No storage at all. *)
Definition noStorageHost : Host :=
  mkHost None (Some (mkChrome true None))
    (λ _ _ _, ReplySilent) (λ _ _ _, ReplySilent).

(** [browser] is defined but carries no [storage]; [chrome] does. *)
Definition bareBrowserHost : Host :=
  mkHost (Some (mkBrowser None)) (Some (mkChrome true (Some twoAreas)))
    (λ _ _ _, ReplyCallback storedAlt VUndefined)
    (λ _ _ _, ReplyCallback tt VUndefined).

(** A document with the five elements, and the same without the checkbox
    of hold-to-send. *)
Definition fullDocument : Document :=
  <["hint" := blankElement]> (<["skipKey" := blankElement]>
  (<["holdToSend" := blankElement]> (<["autoExpandChats" := blankElement]>
  (<["autoTempChat" := blankElement]> ∅)))).

Definition brokenDocument : Document := delete "holdToSend" fullDocument.

(** ** The promise of one attempt, event by event

    [tryGet] and [trySet] wrap one call on an area in [new Promise]: the
    callback they pass settles it, a thenable the call returns settles it,
    an exception of the call rejects it.  Here is that executor on
    everything a host can do around one call, in the order it does it. *)

(** What the call returns: a value, and whether [typeof value.then] is
    ["function"]. *)
Record Returned : Type := mkReturned {
  returnedValue : JsVal;
  hasThen : bool
}.

Definition isThenable (r : Returned) : bool :=
  truthy (returnedValue r) && hasThen r.

(** How the call ends. *)
Inductive CallEnd : Type :=
  | Throws (e : JsVal)
  | Returns (r : Returned).

(** What the host does once the call has returned: it runs the callback,
    or the returned object calls the first or the second function handed to
    its [then]. *)
Inductive HostEvent (R : Type) : Type :=
  | RunsCallback (res : R) (lastError : JsVal)
  | CallsOnFulfilled (res : R)
  | CallsOnRejected (e : JsVal).
Arguments RunsCallback {R} res lastError.
Arguments CallsOnFulfilled {R} res.
Arguments CallsOnRejected {R} e.

(** One call, whole: the runs of the callback inside the call (each with
    its result and the [lastError] of that moment), the end of the call, and
    what follows. *)
Record Answer (R : Type) : Type := mkAnswer {
  inside : list (R * JsVal);
  ending : CallEnd;
  afterwards : list (HostEvent R)
}.
Arguments mkAnswer {R} inside ending afterwards.
Arguments inside {R} a.
Arguments ending {R} a.
Arguments afterwards {R} a.

(** [resolve] and [reject] of a promise: the first call settles it, the
    others do nothing.  [Pending] as the new state is no call at all. *)
Definition settleOnce {R : Type} (state new : Outcome R) : Outcome R :=
  match state with
  | Pending => new
  | _ => state
  end.

(** The callback [tryGet] and [trySet] pass to the area. *)
Definition completion {R : Type} (h : Host) (fallback : string) (c : R * JsVal)
  : Outcome R :=
  let err := readLastError h c.2 in
  if truthy err then Rejected (toError err fallback) else Fulfilled c.1.

(** What an event after the call does to the promise; [thenable] says
    whether [r.then(resolve, reject)] was run. *)
Definition onEvent {R : Type} (h : Host) (fallback : string) (thenable : bool)
    (ev : HostEvent R) : Outcome R :=
  match ev with
  | RunsCallback res lastError => completion h fallback (res, lastError)
  | CallsOnFulfilled res => if thenable then Fulfilled res else Pending
  | CallsOnRejected e => if thenable then Rejected e else Pending
  end.

(** The executor of [tryGet] and [trySet] on an answer of the host. *)
Definition executor {R : Type} (h : Host) (fallback : string) (a : Answer R)
  : Outcome R :=
  let state :=
    foldl (λ state c, settleOnce state (completion h fallback c)) Pending (inside a) in
  match ending a with
  | Throws e => settleOnce state (Rejected (toError e fallback))
  | Returns r =>
      foldl (λ state ev, settleOnce state (onEvent h fallback (isThenable r) ev))
        state (afterwards a)
  end.

(** The first thing in an answer that reaches [resolve] or [reject]. *)
Fixpoint firstEvent {R : Type} (thenable : bool) (evs : list (HostEvent R)) : Reply R :=
  match evs with
  | [] => ReplySilent
  | RunsCallback res lastError :: _ => ReplyCallback res lastError
  | CallsOnFulfilled res :: rest =>
      if thenable then ReplyFulfil res else firstEvent thenable rest
  | CallsOnRejected e :: rest =>
      if thenable then ReplyReject e else firstEvent thenable rest
  end.

Definition firstReply {R : Type} (a : Answer R) : Reply R :=
  match inside a with
  | (res, lastError) :: _ => ReplyCallback res lastError
  | [] =>
      match ending a with
      | Throws e => ReplyThrow e
      | Returns r => firstEvent (isThenable r) (afterwards a)
      end
  end.

(** ** A host that keeps what it is given

    Each area holds the union of the records written to it, the later
    write winning on a key; a read gives the whole content. *)
Definition storedIn (area : StorageAreaLike) (history : list Call) : JsRecord :=
  foldl (λ content c,
           match c with
           | CallSet a values =>
               if Nat.eqb (areaRef a) (areaRef area) then values ∪ content else content
           | CallGet _ _ => content
           end) ∅ history.

Definition memoryHost : Host :=
  mkHost None (Some (mkChrome true (Some twoAreas)))
    (λ history area _, ReplyCallback (storedIn area history) VUndefined)
    (λ _ _ _, ReplyCallback tt VUndefined).

(** A host whose [chrome] carries a [storage] but no [runtime]: it answers
    through the callback, and the error it has to report has no
    [chrome.runtime.lastError] to be read from. *)
Definition noRuntimeHost : Host :=
  mkHost None (Some (mkChrome false (Some twoAreas)))
    (λ _ _ _, ReplyCallback storedAlt (VError "quota exceeded"))
    (λ _ _ _, ReplyCallback tt (VError "quota exceeded")).

(** Every operation of every area throws an [Error] of the host's own. *)
Definition throwingHost : Host :=
  mkHost None (Some (mkChrome true (Some twoAreas)))
    (λ _ _ _, ReplyThrow (VError "host says no"))
    (λ _ _ _, ReplyThrow (VError "host says no")).

(** The synced area throws something that is not an [Error]; the local one
    completes with a plain object in [lastError]. *)
Definition plainErrorHost : Host :=
  mkHost None (Some (mkChrome true (Some twoAreas)))
    (λ _ area _, if Nat.eqb (areaRef area) 1 then ReplyThrow (VString "no")
                 else ReplyCallback ∅ (VObject 7))
    (λ _ _ _, ReplyCallback tt VUndefined).

(** The synced area never answers. *)
Definition silentSyncHost : Host :=
  mkHost None (Some (mkChrome true (Some twoAreas)))
    (λ _ area _, if Nat.eqb (areaRef area) 1 then ReplySilent
                 else ReplyCallback storedAlt VUndefined)
    (λ _ area _, if Nat.eqb (areaRef area) 1 then ReplySilent
                 else ReplyCallback tt VUndefined).

(** A page a user has filled in. *)
Definition filledPage : Page :=
  mkPage (mkElement "stale hint" "" false)
    (mkElement "" "Ctrl" false)
    (mkElement "" "" true)
    (mkElement "" "" false)
    (mkElement "" "" true).
Definition filledWorld : World := mkWorld filledPage [].

(** A host whose storage was written by another version of the extension:
    the legacy flag disagrees with [autoTempChat], and there is a key the
    controller does not know. *)
Definition otherVersionHost : Host :=
  mkHost None (Some (mkChrome true (Some twoAreas)))
    (λ _ _ _, ReplyCallback
                (<["tempChatEnabled" := VBool true]>
                   (<["theme" := VString "dark"]> storedAlt)) VUndefined)
    (λ _ _ _, ReplyCallback tt VUndefined).

(** A document that lacks two of the five elements. *)
Definition sparseDocument : Document :=
  delete "skipKey" (delete "autoTempChat" fullDocument).

(** * Properties *)

(** ** Values and records *)

Lemma typeof_string (v : JsVal) :
  typeof v = "string" ↔ ∃ s, v = VString s.
Proof.
  split.
  - destruct v; simpl; intros H; try discriminate H. eauto.
  - intros [s ->]. reflexivity.
Qed.

Lemma typeof_boolean (v : JsVal) :
  typeof v = "boolean" ↔ ∃ b, v = VBool b.
Proof.
  split.
  - destruct v; simpl; intros H; try discriminate H. eauto.
  - intros [b ->]. reflexivity.
Qed.

Lemma prop_lookup (data : JsRecord) (key : string) (v : JsVal) :
  data !! key = Some v → prop data key = v.
Proof. intros H. unfold prop. rewrite H. reflexivity. Qed.

Lemma prop_empty (key : string) : prop ∅ key = VUndefined.
Proof. unfold prop. rewrite lookup_empty. reflexivity. Qed.

Section SettingsRecord.
Variable s : Settings.

Lemma settingsRecord_skipKey :
  settingsRecord s !! "skipKey" = Some (VString (skipKey s)).
Proof. unfold settingsRecord. by simplify_map_eq. Qed.

Lemma settingsRecord_holdToSend :
  settingsRecord s !! "holdToSend" = Some (VBool (holdToSend s)).
Proof. unfold settingsRecord. by simplify_map_eq. Qed.

Lemma settingsRecord_autoExpandChats :
  settingsRecord s !! "autoExpandChats" = Some (VBool (autoExpandChats s)).
Proof. unfold settingsRecord. by simplify_map_eq. Qed.

Lemma settingsRecord_autoTempChat :
  settingsRecord s !! "autoTempChat" = Some (VBool (autoTempChat s)).
Proof. unfold settingsRecord. by simplify_map_eq. Qed.

Lemma settingsRecord_tempChatEnabled :
  settingsRecord s !! "tempChatEnabled" = Some (VBool (tempChatEnabled s)).
Proof. unfold settingsRecord. by simplify_map_eq. Qed.

Lemma settingsRecord_dom : dom (settingsRecord s) = settingsKeys.
Proof.
  unfold settingsRecord, settingsKeys.
  rewrite !dom_insert_L, dom_empty_L. set_solver.
Qed.

Lemma settingsRecord_other (key : string) :
  key ∉ settingsKeys → settingsRecord s !! key = None.
Proof.
  intros H. apply not_elem_of_dom. by rewrite settingsRecord_dom.
Qed.
End SettingsRecord.

(** ** Normalization *)

Lemma stringOr_ok (raw : JsVal) (d : string) :
  stringFieldOk raw d (stringOr raw d).
Proof.
  destruct raw; simpl; try (right; split; [discriminate | reflexivity]).
  left. split; reflexivity.
Qed.

Lemma booleanOr_ok (raw : JsVal) (d : bool) :
  booleanFieldOk raw d (booleanOr raw d).
Proof.
  destruct raw; simpl; try (right; split; [discriminate | reflexivity]).
  left. split; reflexivity.
Qed.

Lemma settingsRecord_wellTyped (s : Settings) : wellTyped (settingsRecord s).
Proof.
  split.
  - by rewrite (prop_lookup _ _ _ (settingsRecord_skipKey s)).
  - by rewrite (prop_lookup _ _ _ (settingsRecord_holdToSend s)).
  - by rewrite (prop_lookup _ _ _ (settingsRecord_autoExpandChats s)).
  - by rewrite (prop_lookup _ _ _ (settingsRecord_autoTempChat s)).
  - by rewrite (prop_lookup _ _ _ (settingsRecord_tempChatEnabled s)).
Qed.

Example normalize_wrong_type :
  normalizeSettings
    (RawRecord (<["skipKey" := VNumber 42]> (<["holdToSend" := VBool true]> ∅)))
  = {| skipKey := "Shift"; holdToSend := true; autoExpandChats := true;
       autoTempChat := false; tempChatEnabled := false |}.
Proof. reflexivity. Qed.

Lemma rawField_prop (value : RawSettings) (key : string) :
  rawField value key = prop (orEmpty value) key.
Proof.
  destruct value as [| | data]; simpl; unfold prop.
  - by rewrite lookup_empty.
  - by rewrite lookup_empty.
  - by destruct (data !! key).
Qed.

(** C2.  Whatever [normalizeSettings] is given ([null], [undefined], an empty
    object, a record with missing or mistyped properties), each field of the
    result is the raw value of that property in the record given when that
    value has the field's type (string for [skipKey], boolean for the four
    flags) and the default otherwise (Shift, false, true, false, false); the
    result, seen as an object, has exactly the five properties, each with its
    type; [normalizeSettings({})], like [normalizeSettings(null)] and
    [normalizeSettings(undefined)], is the default record; and
    [normalizeSettings({skipKey: 42, holdToSend: true})] keeps the flag and
    takes the default key. *)
Theorem normalizeSettings_complete (value : RawSettings) :
  let s := normalizeSettings value in
  stringFieldOk (rawField value "skipKey") "Shift" (skipKey s) ∧
  booleanFieldOk (rawField value "holdToSend") false (holdToSend s) ∧
  booleanFieldOk (rawField value "autoExpandChats") true (autoExpandChats s) ∧
  booleanFieldOk (rawField value "autoTempChat") false (autoTempChat s) ∧
  booleanFieldOk (rawField value "tempChatEnabled") false (tempChatEnabled s) ∧
  dom (settingsRecord s) = settingsKeys ∧
  wellTyped (settingsRecord s) ∧
  SETTINGS_DEFAULTS = mkSettings "Shift" false true false false ∧
  normalizeSettings (RawRecord ∅) = SETTINGS_DEFAULTS ∧
  normalizeSettings RawNull = SETTINGS_DEFAULTS ∧
  normalizeSettings RawUndefined = SETTINGS_DEFAULTS ∧
  normalizeSettings
    (RawRecord (<["skipKey" := VNumber 42]> (<["holdToSend" := VBool true]> ∅)))
  = mkSettings "Shift" true true false false.
Proof.
  intros s. subst s. rewrite !rawField_prop. unfold normalizeSettings. simpl.
  repeat split;
    try apply stringOr_ok; try apply booleanOr_ok;
    try apply settingsRecord_dom; try apply settingsRecord_wellTyped.
Qed.

Lemma normalizeSettings_settingsRecord (s : Settings) :
  normalizeSettings (RawRecord (settingsRecord s)) = s.
Proof.
  unfold normalizeSettings. simpl.
  rewrite (prop_lookup _ _ _ (settingsRecord_skipKey s)).
  rewrite (prop_lookup _ _ _ (settingsRecord_holdToSend s)).
  rewrite (prop_lookup _ _ _ (settingsRecord_autoExpandChats s)).
  rewrite (prop_lookup _ _ _ (settingsRecord_autoTempChat s)).
  rewrite (prop_lookup _ _ _ (settingsRecord_tempChatEnabled s)).
  destruct s; reflexivity.
Qed.

Lemma prop_typed_lookup (o : JsRecord) (key : string) (v : JsVal) :
  prop o key = v → v ≠ VUndefined → o !! key = Some v.
Proof.
  unfold prop. destruct (o !! key) as [x|]; simpl; intros -> H; [reflexivity | done].
Qed.

Lemma settingsRecord_normalizeSettings (o : JsRecord) :
  isSettings o → settingsRecord (normalizeSettings (RawRecord o)) = o.
Proof.
  intros [Hdom [Hk Hh He Ha Ht]].
  apply typeof_string in Hk as [k Hk].
  apply typeof_boolean in Hh as [h Hh].
  apply typeof_boolean in He as [e He].
  apply typeof_boolean in Ha as [a Ha].
  apply typeof_boolean in Ht as [t Ht].
  unfold normalizeSettings. simpl. rewrite Hk, Hh, He, Ha, Ht. simpl.
  apply prop_typed_lookup in Hk, Hh, He, Ha, Ht; try discriminate.
  apply map_eq. intros key.
  destruct (decide (key ∈ settingsKeys)) as [Hin | Hout].
  - unfold settingsKeys in Hin. unfold settingsRecord. simpl.
    repeat (apply elem_of_union in Hin as [Hin | Hin]);
      apply elem_of_singleton in Hin; subst key; by simplify_map_eq.
  - rewrite settingsRecord_other by done.
    symmetry. apply not_elem_of_dom. by rewrite Hdom.
Qed.

(** C9.  Normalizing twice is normalizing once, and normalization leaves a
    complete, correctly typed settings value as it is: as a [Settings]
    record, and as the object with exactly the five typed properties. *)
Theorem normalizeSettings_idempotent :
  (∀ x : RawSettings,
     normalizeSettings (RawRecord (settingsRecord (normalizeSettings x)))
     = normalizeSettings x) ∧
  (∀ s : Settings, normalizeSettings (RawRecord (settingsRecord s)) = s) ∧
  (∀ o : JsRecord,
     isSettings o → settingsRecord (normalizeSettings (RawRecord o)) = o).
Proof.
  split; [| split].
  - intros x. apply normalizeSettings_settingsRecord.
  - apply normalizeSettings_settingsRecord.
  - apply settingsRecord_normalizeSettings.
Qed.

Lemma normalizeSettings_idempotent_witness :
  let o : JsRecord :=
    <["skipKey" := VString "Alt"]> (<["holdToSend" := VBool true]>
    (<["autoExpandChats" := VBool false]> (<["autoTempChat" := VBool true]>
    (<["tempChatEnabled" := VBool false]> ∅)))) in
  isSettings o ∧ settingsRecord (normalizeSettings (RawRecord o)) = o.
Proof.
  intros o.
  assert (Ho : isSettings o).
  { split; [vm_compute; reflexivity | split; reflexivity]. }
  split; [exact Ho |].
  exact (proj2 (proj2 normalizeSettings_idempotent) o Ho).
Defined.

(** ** Hint text *)

Lemma eqb_not_None (k : string) : k ≠ "None" → String.eqb k "None" = false.
Proof. intros H. by apply String.eqb_neq. Qed.

(** C3.  The hint is a function of [skipKey] and [holdToSend] alone, with
    the four texts of the table: two fixed ones for ["None"], and two built
    around the key for any other key; [setHint] puts that text in the hint
    element and touches nothing else. *)
Theorem hintText_table :
  hintText "None" false = "Auto-send always happens when you accept dictation." ∧
  hintText "None" true = "Auto-send is disabled because no modifier key is selected." ∧
  (∀ k : string, k ≠ "None" →
     hintText k false = "Hold " ++ k ++ " while accepting dictation to skip auto-send." ∧
     hintText k true =
       "Auto-send happens only while holding " ++ k ++ " when you accept dictation.") ∧
  (∀ (k : string) (b : bool) (p : Page),
     setHint k b p =
       mkPage (setTextContent (hintText k b) (hintEl p))
         (selectEl p) (holdEl p) (autoExpandEl p) (autoTempChatEl p)).
Proof.
  split; [reflexivity |]. split; [reflexivity |]. split.
  - intros k Hk. unfold hintText. rewrite (eqb_not_None k Hk). split; reflexivity.
  - reflexivity.
Qed.

Lemma hintText_table_witness :
  "Ctrl" ≠ "None" ∧
  hintText "Ctrl" false = "Hold Ctrl while accepting dictation to skip auto-send." ∧
  hintText "Ctrl" true =
    "Auto-send happens only while holding Ctrl when you accept dictation.".
Proof.
  assert (H : "Ctrl" ≠ "None") by discriminate.
  split; [exact H |].
  exact (proj1 (proj2 (proj2 hintText_table)) "Ctrl" H).
Defined.

(** ** Element lookup *)

Lemma mustGetElement_present (document : Document) (id : string) (el : Element) :
  document !! id = Some el → mustGetElement document id = Normal el.
Proof. intros H. unfold mustGetElement. by rewrite H. Qed.

Lemma mustGetElement_absent (document : Document) (id : string) :
  document !! id = None →
  mustGetElement document id = Throw (VError ("Missing element: " ++ id)).
Proof. intros H. unfold mustGetElement. by rewrite H. Qed.

Lemma main_getElements_throw (h : Host) (document : Document) (e : JsVal) :
  getElements document = Throw e → main h document = Throw e.
Proof. intros H. unfold main. rewrite H. reflexivity. Qed.

Lemma main_getElements_normal (h : Host) (document : Document) (p : Page) :
  getElements document = Normal p →
  main h document = Normal (swallow (load h) (mkWorld p [])).
Proof. intros H. unfold main. rewrite H. reflexivity. Qed.

(** Membership in the list of required identifiers. *)
Ltac in_required :=
  unfold requiredIds; apply list_elem_of_In; simpl; tauto.

(** C6.  If one of the five elements is missing from the document, looking
    the elements up throws an [Error] that names a missing identifier, and
    the module body stops there: no listener is bound and no load starts.
    If the five are there, the lookup returns them and nothing is thrown. *)
Theorem getElements_fail_fast (h : Host) (document : Document) :
  ((∃ id, id ∈ requiredIds ∧ document !! id = None) →
   ∃ id, id ∈ requiredIds ∧ document !! id = None ∧
     getElements document = Throw (VError ("Missing element: " ++ id)) ∧
     main h document = Throw (VError ("Missing element: " ++ id))) ∧
  ((∀ id, id ∈ requiredIds → is_Some (document !! id)) →
   ∃ p, getElements document = Normal p ∧
     document !! "hint" = Some (hintEl p) ∧
     document !! "skipKey" = Some (selectEl p) ∧
     document !! "holdToSend" = Some (holdEl p) ∧
     document !! "autoExpandChats" = Some (autoExpandEl p) ∧
     document !! "autoTempChat" = Some (autoTempChatEl p) ∧
     ∃ r, main h document = Normal r).
Proof.
  split.
  - intros Hmissing.
    assert (∃ id, id ∈ requiredIds ∧ document !! id = None ∧
              getElements document = Throw (VError ("Missing element: " ++ id)))
      as (id & Hin & Hnone & Hthrow).
    { unfold getElements, mustGetElement, requiredIds.
      destruct (document !! "hint") as [e1|] eqn:H1;
        [| exists "hint"; split; [in_required | done]].
      destruct (document !! "skipKey") as [e2|] eqn:H2;
        [| exists "skipKey"; split; [in_required | done]].
      destruct (document !! "holdToSend") as [e3|] eqn:H3;
        [| exists "holdToSend"; split; [in_required | done]].
      destruct (document !! "autoExpandChats") as [e4|] eqn:H4;
        [| exists "autoExpandChats"; split; [in_required | done]].
      destruct (document !! "autoTempChat") as [e5|] eqn:H5;
        [| exists "autoTempChat"; split; [in_required | done]].
      exfalso. destruct Hmissing as (id & Hin & Hnone).
      unfold requiredIds in Hin.
      repeat (apply elem_of_cons in Hin as [-> | Hin]; [congruence |]).
      by apply elem_of_nil in Hin. }
    exists id. repeat split; try done. by apply main_getElements_throw.
  - intros Hall.
    destruct (Hall "hint") as [e1 H1]; [in_required |].
    destruct (Hall "skipKey") as [e2 H2]; [in_required |].
    destruct (Hall "holdToSend") as [e3 H3]; [in_required |].
    destruct (Hall "autoExpandChats") as [e4 H4]; [in_required |].
    destruct (Hall "autoTempChat") as [e5 H5]; [in_required |].
    assert (Hget : getElements document = Normal (mkPage e1 e2 e3 e4 e5)).
    { unfold getElements, mustGetElement. rewrite H1, H2, H3, H4, H5. reflexivity. }
    exists (mkPage e1 e2 e3 e4 e5). repeat split; try done.
    eexists. by apply main_getElements_normal.
Qed.

(** ** Storage access *)

Lemma hostStorage_browser (h : Host) (b : BrowserGlobal) :
  browser h = Some b → hostStorage h = browser_storage b.
Proof.
  intros H. unfold hostStorage. rewrite H. by destruct (browser_storage b).
Qed.

Lemma hostStorage_chrome (h : Host) :
  browser h = None → hostStorage h = chrome h ≫= chrome_storage.
Proof.
  intros H. unfold hostStorage. rewrite H.
  destruct (chrome h) as [c|]; simpl; [| reflexivity].
  by destruct (chrome_storage c).
Qed.

Lemma getStorageArea_sync (h : Host) (st : StorageApi) (s : StorageAreaLike) :
  hostStorage h = Some st → sync st = Some s → getStorageArea h true = Some s.
Proof. intros Hst Hs. unfold getStorageArea. by rewrite Hst, Hs. Qed.

Lemma getStorageArea_no_sync (h : Host) (st : StorageApi) :
  hostStorage h = Some st → sync st = None → getStorageArea h true = local st.
Proof. intros Hst Hs. unfold getStorageArea. by rewrite Hst, Hs. Qed.

Lemma getStorageArea_local (h : Host) (st : StorageApi) :
  hostStorage h = Some st → getStorageArea h false = local st.
Proof. intros Hst. unfold getStorageArea. by rewrite Hst. Qed.

Lemma getStorageArea_none (h : Host) (preferSync : bool) :
  hostStorage h = None → getStorageArea h preferSync = None.
Proof. intros Hst. unfold getStorageArea. by rewrite Hst. Qed.

(** Without an area for [preferSync = true] there is none at all. *)
Lemma getStorageArea_true_None (h : Host) :
  getStorageArea h true = None → getStorageArea h false = None.
Proof.
  unfold getStorageArea. destruct (hostStorage h) as [st|]; [| done].
  by destruct (sync st).
Qed.

Lemma tryGet_world (h : Host) (keys : JsRecord) (area : StorageAreaLike) (w : World) :
  (tryGet h keys area w).2 = mkWorld (page w) (calls w ++ [CallGet area keys]).
Proof. reflexivity. Qed.

Lemma trySet_world (h : Host) (obj : JsRecord) (area : StorageAreaLike) (w : World) :
  (trySet h obj area w).2 = mkWorld (page w) (calls w ++ [CallSet area obj]).
Proof. reflexivity. Qed.

(** [storageGet], one case per way the first attempt can end. *)
Lemma storageGet_cases (h : Host) (keys : JsRecord) (w : World) :
  storageGet h keys w =
    match getStorageArea h true with
    | Some area =>
        match tryGet h keys area w with
        | (Fulfilled res, w') => (Fulfilled res, w')
        | (Rejected _, w') =>
            match getStorageArea h false with
            | Some area' => tryGet h keys area' w'
            | None => (Fulfilled ∅, w')
            end
        | (Pending, w') => (Pending, w')
        end
    | None =>
        match getStorageArea h false with
        | Some area' => tryGet h keys area' w
        | None => (Fulfilled ∅, w)
        end
    end.
Proof.
  unfold storageGet, mbind, Async_bind, tryCatch, mret, Async_ret.
  destruct (getStorageArea h true) as [area|].
  - destruct (tryGet h keys area w) as [[res | e |] w']; try reflexivity.
    by destruct (getStorageArea h false).
  - by destruct (getStorageArea h false).
Qed.

(** [storageSet], likewise. *)
Lemma storageSet_cases (h : Host) (obj : JsRecord) (w : World) :
  storageSet h obj w =
    match getStorageArea h true with
    | Some area =>
        match trySet h obj area w with
        | (Fulfilled _, w') => (Fulfilled tt, w')
        | (Rejected _, w') =>
            match getStorageArea h false with
            | Some area' => trySet h obj area' w'
            | None => (Fulfilled tt, w')
            end
        | (Pending, w') => (Pending, w')
        end
    | None =>
        match getStorageArea h false with
        | Some area' => trySet h obj area' w
        | None => (Fulfilled tt, w)
        end
    end.
Proof.
  unfold storageSet, mbind, Async_bind, tryCatch, mret, Async_ret.
  destruct (getStorageArea h true) as [area|].
  - destruct (trySet h obj area w) as [[[] | e |] w']; try reflexivity.
    by destruct (getStorageArea h false).
  - by destruct (getStorageArea h false).
Qed.

(** ** Reading from storage *)

(** C1, as the code has it.  [storageGet] tries the area of the first
    lookup and returns what it gives; when that attempt fails it falls back
    to the local area and gives what the local area gives; it returns an
    empty mapping, without a call, when the host has no area, and after a
    failed first attempt when there is no local area.  It is rejected only
    when a local area exists and the get on it, the last attempt, is
    rejected: that failure reaches the caller. *)
Theorem storageGet_fallback (h : Host) (keys : JsRecord) (w : World) :
  (getStorageArea h true = None → storageGet h keys w = (Fulfilled ∅, w)) ∧
  (∀ area res w',
     getStorageArea h true = Some area →
     tryGet h keys area w = (Fulfilled res, w') →
     storageGet h keys w = (Fulfilled res, w')) ∧
  (∀ area e w',
     getStorageArea h true = Some area →
     tryGet h keys area w = (Rejected e, w') →
     storageGet h keys w =
       match getStorageArea h false with
       | Some area' => tryGet h keys area' w'
       | None => (Fulfilled ∅, w')
       end) ∧
  (∀ e, (storageGet h keys w).1 = Rejected e →
     ∃ area' w', getStorageArea h false = Some area' ∧
       storageGet h keys w = tryGet h keys area' w' ∧
       (tryGet h keys area' w').1 = Rejected e).
Proof.
  rewrite storageGet_cases. repeat split.
  - intros Hnone. rewrite Hnone, (getStorageArea_true_None h Hnone). reflexivity.
  - intros area res w' Harea Hget. by rewrite Harea, Hget.
  - intros area e w' Harea Hget. by rewrite Harea, Hget.
  - intros e.
    destruct (getStorageArea h true) as [area|] eqn:Harea.
    + destruct (tryGet h keys area w) as [[res | e' |] w'] eqn:Hget;
        simpl; try discriminate.
      destruct (getStorageArea h false) as [area'|]; [| discriminate].
      intros Hrej. by exists area', w'.
    + rewrite (getStorageArea_true_None h Harea). discriminate.
Qed.

Lemma storageGet_fallback_witness :
  (getStorageArea noStorageHost true = None ∧
   storageGet noStorageHost storedAlt blankWorld = (Fulfilled ∅, blankWorld)) ∧
  (getStorageArea chromiumHost true = Some syncArea ∧
   storageGet chromiumHost ∅ blankWorld
   = (Fulfilled storedAlt, mkWorld blankPage [CallGet syncArea ∅])) ∧
  (getStorageArea syncDownHost true = Some syncArea ∧
   tryGet syncDownHost ∅ syncArea blankWorld
   = (Rejected (VError "sync is disabled"), mkWorld blankPage [CallGet syncArea ∅]) ∧
   storageGet syncDownHost ∅ blankWorld
   = tryGet syncDownHost ∅ localArea (mkWorld blankPage [CallGet syncArea ∅])) ∧
  ((storageGet failingHost ∅ blankWorld).1 = Rejected (VError "Storage get failed") ∧
   ∃ area' w', getStorageArea failingHost false = Some area' ∧
     storageGet failingHost ∅ blankWorld = tryGet failingHost ∅ area' w' ∧
     (tryGet failingHost ∅ area' w').1 = Rejected (VError "Storage get failed")).
Proof.
  split; [| split; [| split]].
  - assert (H : getStorageArea noStorageHost true = None) by reflexivity.
    split; [exact H |].
    exact (proj1 (storageGet_fallback noStorageHost storedAlt blankWorld) H).
  - assert (H : getStorageArea chromiumHost true = Some syncArea) by reflexivity.
    split; [exact H |].
    exact (proj1 (proj2 (storageGet_fallback chromiumHost ∅ blankWorld))
             syncArea storedAlt _ H eq_refl).
  - assert (H : getStorageArea syncDownHost true = Some syncArea) by reflexivity.
    split; [exact H |]. split; [reflexivity |].
    exact (proj1 (proj2 (proj2 (storageGet_fallback syncDownHost ∅ blankWorld)))
             syncArea _ _ H eq_refl).
  - assert (H : (storageGet failingHost ∅ blankWorld).1
                = Rejected (VError "Storage get failed")) by reflexivity.
    split; [exact H |].
    exact (proj2 (proj2 (proj2 (storageGet_fallback failingHost ∅ blankWorld))) _ H).
Defined.

(** C1 as the specification words it fails: with both areas there and both
    gets failing, [storageGet] is rejected; it does not return an empty
    mapping. *)
Lemma storageGet_rejected_when_both_fail :
  getStorageArea failingHost true = Some syncArea ∧
  getStorageArea failingHost false = Some localArea ∧
  (∀ w, (tryGet failingHost ∅ syncArea w).1 = Rejected (VError "Storage get failed")) ∧
  (∀ w, (tryGet failingHost ∅ localArea w).1 = Rejected (VError "Storage get failed")) ∧
  storageGet failingHost ∅ blankWorld
  = (Rejected (VError "Storage get failed"),
     mkWorld blankPage [CallGet syncArea ∅; CallGet localArea ∅]) ∧
  ¬ (∀ (h : Host) (keys : JsRecord) (w : World),
       ∃ res, (storageGet h keys w).1 = Fulfilled res).
Proof.
  repeat split.
  intros Hnever. destruct (Hnever failingHost ∅ blankWorld) as [res Hres].
  discriminate Hres.
Qed.

(** ** Writing to storage *)

(** The calls [storageSet] makes, whatever the host does. *)
Lemma storageSet_calls (h : Host) (obj : JsRecord) (w : World) :
  ∃ areas,
    (storageSet h obj w).2
    = mkWorld (page w) (calls w ++ map (λ area, CallSet area obj) areas).
Proof.
  rewrite storageSet_cases.
  destruct (getStorageArea h true) as [area|] eqn:Harea.
  - unfold trySet at 1.
    destruct (settle h "Storage set failed" (onSet h (calls w) area obj))
      as [[] | e |]; simpl.
    + by exists [area].
    + destruct (getStorageArea h false) as [area'|]; simpl.
      * exists [area; area']. by rewrite <- app_assoc.
      * by exists [area].
    + by exists [area].
  - rewrite (getStorageArea_true_None h Harea). exists []. simpl.
    rewrite app_nil_r. by destruct w.
Qed.

(** C4.  [storageSet] writes to the synced area first; when that write
    succeeds nothing else is called; when the host has no synced area, or
    the synced write fails, the local area (if the host has one) is called
    with the same payload; with no area at all the call is fulfilled without
    a single write.  Every call made is a [set] with the payload given, and
    the page is not touched. *)
Theorem storageSet_fallback (h : Host) (obj : JsRecord) (w : World) :
  (∃ areas,
     (storageSet h obj w).2
     = mkWorld (page w) (calls w ++ map (λ area, CallSet area obj) areas)) ∧
  (∀ st s, hostStorage h = Some st → sync st = Some s →
     (∃ rest, calls (storageSet h obj w).2 = (calls w ++ CallSet s obj :: rest)%list) ∧
     ((trySet h obj s w).1 = Fulfilled tt →
      storageSet h obj w
      = (Fulfilled tt, mkWorld (page w) (calls w ++ [CallSet s obj])))) ∧
  (∀ st s l e, hostStorage h = Some st → sync st = Some s → local st = Some l →
     (trySet h obj s w).1 = Rejected e →
     storageSet h obj w = trySet h obj l (trySet h obj s w).2 ∧
     calls (storageSet h obj w).2 = (calls w ++ [CallSet s obj; CallSet l obj])%list) ∧
  (∀ st l, hostStorage h = Some st → sync st = None → local st = Some l →
     ∃ rest, calls (storageSet h obj w).2 = (calls w ++ CallSet l obj :: rest)%list) ∧
  (∀ st s e, hostStorage h = Some st → sync st = Some s → local st = None →
     (trySet h obj s w).1 = Rejected e →
     storageSet h obj w
     = (Fulfilled tt, mkWorld (page w) (calls w ++ [CallSet s obj]))) ∧
  (hostStorage h = None ∨ (∃ st, hostStorage h = Some st ∧ sync st = None ∧ local st = None) →
   storageSet h obj w = (Fulfilled tt, w)).
Proof.
  rewrite storageSet_cases. split; [| split; [| split; [| split; [| split]]]].
  - rewrite <- storageSet_cases. apply storageSet_calls.
  - intros st s Hst Hs. rewrite (getStorageArea_sync h st s Hst Hs).
    destruct (trySet h obj s w) as [[[] | e |] w'] eqn:Hset; simpl;
      (assert (Hw' : w' = mkWorld (page w) (calls w ++ [CallSet s obj]))
         by (by rewrite <- (trySet_world h obj s w), Hset));
      subst w'; (split; [| first [discriminate | intros _; reflexivity]]).
    + by exists [].
    + destruct (getStorageArea h false) as [area'|]; simpl.
      * exists [CallSet area' obj]. by rewrite <- app_assoc.
      * by exists [].
    + by exists [].
  - intros st s l e Hst Hs Hl Hrej.
    rewrite (getStorageArea_sync h st s Hst Hs), (getStorageArea_local h st Hst), Hl.
    destruct (trySet h obj s w) as [[[] | e' |] w'] eqn:Hset;
      simpl in Hrej; try discriminate.
    split; [reflexivity |].
    rewrite trySet_world. simpl.
    replace w' with (trySet h obj s w).2 by by rewrite Hset.
    rewrite trySet_world. simpl. by rewrite <- app_assoc.
  - intros st l Hst Hs Hl.
    rewrite (getStorageArea_no_sync h st Hst Hs), (getStorageArea_local h st Hst), Hl.
    unfold trySet at 1.
    destruct (settle h "Storage set failed" (onSet h (calls w) l obj))
      as [[] | e |]; simpl.
    + by exists [].
    + exists [CallSet l obj]. by rewrite <- app_assoc.
    + by exists [].
  - intros st s e Hst Hs Hl Hrej.
    rewrite (getStorageArea_sync h st s Hst Hs), (getStorageArea_local h st Hst), Hl.
    destruct (trySet h obj s w) as [[[] | e' |] w'] eqn:Hset;
      simpl in Hrej; try discriminate.
    replace w' with (trySet h obj s w).2 by by rewrite Hset.
    by rewrite trySet_world.
  - intros [Hnone | (st & Hst & Hs & Hl)].
    + by rewrite !(getStorageArea_none h _ Hnone).
    + by rewrite (getStorageArea_no_sync h st Hst Hs),
        (getStorageArea_local h st Hst), Hl.
Qed.

Lemma storageSet_fallback_witness :
  (hostStorage chromiumHost = Some twoAreas ∧ sync twoAreas = Some syncArea ∧
   (trySet chromiumHost storedAlt syncArea blankWorld).1 = Fulfilled tt ∧
   storageSet chromiumHost storedAlt blankWorld
   = (Fulfilled tt, mkWorld blankPage [CallSet syncArea storedAlt])) ∧
  (hostStorage syncDownHost = Some twoAreas ∧ local twoAreas = Some localArea ∧
   (trySet syncDownHost storedAlt syncArea blankWorld).1
   = Rejected (VError "sync is disabled") ∧
   calls (storageSet syncDownHost storedAlt blankWorld).2
   = [CallSet syncArea storedAlt; CallSet localArea storedAlt]) ∧
  (hostStorage flakyLocalHost = Some localOnly ∧ sync localOnly = None ∧
   local localOnly = Some localArea ∧
   ∃ rest, calls (storageSet flakyLocalHost storedAlt blankWorld).2
           = CallSet localArea storedAlt :: rest) ∧
  (hostStorage syncOnlyDownHost = Some syncOnly ∧ local syncOnly = None ∧
   (trySet syncOnlyDownHost storedAlt syncArea blankWorld).1
   = Rejected (VError "sync is disabled") ∧
   storageSet syncOnlyDownHost storedAlt blankWorld
   = (Fulfilled tt, mkWorld blankPage [CallSet syncArea storedAlt])) ∧
  (hostStorage noStorageHost = None ∧
   storageSet noStorageHost storedAlt blankWorld = (Fulfilled tt, blankWorld)).
Proof.
  split; [| split; [| split; [| split]]].
  - assert (Hst : hostStorage chromiumHost = Some twoAreas) by reflexivity.
    assert (Hs : sync twoAreas = Some syncArea) by reflexivity.
    assert (Hok : (trySet chromiumHost storedAlt syncArea blankWorld).1 = Fulfilled tt)
      by reflexivity.
    repeat (split; [assumption |]).
    destruct (storageSet_fallback chromiumHost storedAlt blankWorld)
      as (_ & Hsync & _).
    exact (proj2 (Hsync twoAreas syncArea Hst Hs) Hok).
  - assert (Hst : hostStorage syncDownHost = Some twoAreas) by reflexivity.
    assert (Hs : sync twoAreas = Some syncArea) by reflexivity.
    assert (Hl : local twoAreas = Some localArea) by reflexivity.
    assert (Hrej : (trySet syncDownHost storedAlt syncArea blankWorld).1
                   = Rejected (VError "sync is disabled")) by reflexivity.
    repeat (split; [assumption |]).
    destruct (storageSet_fallback syncDownHost storedAlt blankWorld)
      as (_ & _ & Hfail & _).
    exact (proj2 (Hfail twoAreas syncArea localArea _ Hst Hs Hl Hrej)).
  - assert (Hst : hostStorage flakyLocalHost = Some localOnly) by reflexivity.
    assert (Hs : sync localOnly = None) by reflexivity.
    assert (Hl : local localOnly = Some localArea) by reflexivity.
    repeat (split; [assumption |]).
    destruct (storageSet_fallback flakyLocalHost storedAlt blankWorld)
      as (_ & _ & _ & Hlocal & _).
    exact (Hlocal localOnly localArea Hst Hs Hl).
  - assert (Hst : hostStorage syncOnlyDownHost = Some syncOnly) by reflexivity.
    assert (Hs : sync syncOnly = Some syncArea) by reflexivity.
    assert (Hl : local syncOnly = None) by reflexivity.
    assert (Hrej : (trySet syncOnlyDownHost storedAlt syncArea blankWorld).1
                   = Rejected (VError "sync is disabled")) by reflexivity.
    repeat (split; [assumption |]).
    destruct (storageSet_fallback syncOnlyDownHost storedAlt blankWorld)
      as (_ & _ & _ & _ & Hnolocal & _).
    exact (Hnolocal syncOnly syncArea _ Hst Hs Hl Hrej).
  - assert (Hst : hostStorage noStorageHost = None) by reflexivity.
    split; [assumption |].
    destruct (storageSet_fallback noStorageHost storedAlt blankWorld)
      as (_ & _ & _ & _ & _ & Hnone).
    exact (Hnone (or_introl Hst)).
Defined.

(** ** One area reached twice *)

(** C10.  When the host has a local area and no synced one, the lookup with
    [preferSync = true] gives the local area, the one the lookup with
    [preferSync = false] gives: the first attempt and the fallback of
    [storageGet] and of [storageSet] run on the same area, and when the
    first attempt fails the same operation is called on it once more, with
    the same argument. *)
Theorem local_area_tried_twice (h : Host) (st : StorageApi) (l : StorageAreaLike) :
  hostStorage h = Some st → sync st = None → local st = Some l →
  getStorageArea h true = Some l ∧
  getStorageArea h false = Some l ∧
  (∀ keys w e, (tryGet h keys l w).1 = Rejected e →
     storageGet h keys w = tryGet h keys l (tryGet h keys l w).2 ∧
     calls (storageGet h keys w).2 = (calls w ++ [CallGet l keys; CallGet l keys])%list) ∧
  (∀ obj w e, (trySet h obj l w).1 = Rejected e →
     storageSet h obj w = trySet h obj l (trySet h obj l w).2 ∧
     calls (storageSet h obj w).2 = (calls w ++ [CallSet l obj; CallSet l obj])%list).
Proof.
  intros Hst Hs Hl.
  assert (Htrue : getStorageArea h true = Some l)
    by (by rewrite (getStorageArea_no_sync h st Hst Hs)).
  assert (Hfalse : getStorageArea h false = Some l)
    by (by rewrite (getStorageArea_local h st Hst)).
  repeat split; try assumption.
  - rewrite storageGet_cases, Htrue, Hfalse.
    destruct (tryGet h keys l w) as [[res | e' |] w']; simpl in *;
      congruence.
  - rewrite storageGet_cases, Htrue, Hfalse.
    destruct (tryGet h keys l w) as [[res | e' |] w'] eqn:Hget; simpl in *;
      try congruence.
    replace w' with (tryGet h keys l w).2 by by rewrite Hget.
    rewrite !tryGet_world. simpl. by rewrite <- app_assoc.
  - rewrite storageSet_cases, Htrue, Hfalse.
    destruct (trySet h obj l w) as [[[] | e' |] w']; simpl in *;
      congruence.
  - rewrite storageSet_cases, Htrue, Hfalse.
    destruct (trySet h obj l w) as [[[] | e' |] w'] eqn:Hset; simpl in *;
      try congruence.
    replace w' with (trySet h obj l w).2 by by rewrite Hset.
    rewrite !trySet_world. simpl. by rewrite <- app_assoc.
Qed.

Lemma local_area_tried_twice_witness :
  (hostStorage flakyLocalHost = Some localOnly ∧ sync localOnly = None ∧
   local localOnly = Some localArea) ∧
  getStorageArea flakyLocalHost true = Some localArea ∧
  getStorageArea flakyLocalHost false = Some localArea ∧
  ((tryGet flakyLocalHost ∅ localArea blankWorld).1 = Rejected (VError "busy") ∧
   calls (storageGet flakyLocalHost ∅ blankWorld).2
   = [CallGet localArea ∅; CallGet localArea ∅]) ∧
  ((trySet flakyLocalHost storedAlt localArea blankWorld).1 = Rejected (VError "busy") ∧
   calls (storageSet flakyLocalHost storedAlt blankWorld).2
   = [CallSet localArea storedAlt; CallSet localArea storedAlt]).
Proof.
  assert (Hst : hostStorage flakyLocalHost = Some localOnly) by reflexivity.
  assert (Hs : sync localOnly = None) by reflexivity.
  assert (Hl : local localOnly = Some localArea) by reflexivity.
  assert (Hget : (tryGet flakyLocalHost ∅ localArea blankWorld).1
                 = Rejected (VError "busy")) by reflexivity.
  assert (Hset : (trySet flakyLocalHost storedAlt localArea blankWorld).1
                 = Rejected (VError "busy")) by reflexivity.
  destruct (local_area_tried_twice flakyLocalHost localOnly localArea Hst Hs Hl)
    as (Htrue & Hfalse & Hgets & Hsets).
  split; [by repeat split |].
  split; [exact Htrue |]. split; [exact Hfalse |]. split.
  - split; [exact Hget |]. exact (proj2 (Hgets ∅ blankWorld _ Hget)).
  - split; [exact Hset |]. exact (proj2 (Hsets storedAlt blankWorld _ Hset)).
Defined.

(** ** Which global is asked *)

(** C7, as the code has it.  The lookup asks [browser] whenever [browser] is
    defined, whether or not it carries a [storage], and [chrome] only when
    [browser] is undefined; in the storage of the global it asked it takes
    the synced area when one is preferred and present, the local area
    otherwise.  So [browser] wins when both globals carry a storage, and the
    storage of [chrome] is used when [browser] is undefined. *)
Theorem hostStorage_by_global (h : Host) :
  (∀ b, browser h = Some b → hostStorage h = browser_storage b) ∧
  (browser h = None → hostStorage h = chrome h ≫= chrome_storage) ∧
  (∀ st, browser h = None → chrome h ≫= chrome_storage = Some st →
     getStorageArea h false = local st ∧
     getStorageArea h true = match sync st with Some area => Some area | None => local st end) ∧
  (∀ b st, browser h = Some b → browser_storage b = Some st →
     getStorageArea h false = local st ∧
     getStorageArea h true = match sync st with Some area => Some area | None => local st end).
Proof.
  assert (Harea : ∀ st, hostStorage h = Some st →
     getStorageArea h false = local st ∧
     getStorageArea h true = match sync st with Some area => Some area | None => local st end).
  { intros st Hst. unfold getStorageArea. rewrite Hst. by destruct (sync st). }
  split; [apply hostStorage_browser |]. split; [apply hostStorage_chrome |]. split.
  - intros st Hb Hc. apply Harea. by rewrite (hostStorage_chrome h Hb).
  - intros b st Hb Hst. apply Harea. by rewrite (hostStorage_browser h b Hb).
Qed.

Lemma hostStorage_by_global_witness :
  (browser firefoxHost = Some (mkBrowser (Some twoAreas)) ∧
   hostStorage firefoxHost = Some twoAreas ∧
   getStorageArea firefoxHost true = Some syncArea) ∧
  (browser chromiumHost = None ∧
   hostStorage chromiumHost = Some twoAreas ∧
   getStorageArea chromiumHost false = Some localArea).
Proof.
  split.
  - assert (Hb : browser firefoxHost = Some (mkBrowser (Some twoAreas))) by reflexivity.
    destruct (hostStorage_by_global firefoxHost) as (Hbrowser & _ & _ & Hareas).
    split; [exact Hb |]. split; [exact (Hbrowser _ Hb) |].
    exact (proj2 (Hareas _ twoAreas Hb eq_refl)).
  - assert (Hb : browser chromiumHost = None) by reflexivity.
    destruct (hostStorage_by_global chromiumHost) as (_ & Hchrome & Hareas & _).
    split; [exact Hb |]. split; [exact (Hchrome Hb) |].
    exact (proj1 (Hareas twoAreas Hb eq_refl)).
Defined.

(** C7 as the specification words it fails: [browser] is defined without a
    [storage], [chrome] alone carries one, and no area is found. *)
Lemma chrome_storage_not_used :
  onlyCarrier bareBrowserHost twoAreas ∧
  hostStorage bareBrowserHost = None ∧
  getStorageArea bareBrowserHost true = None ∧
  getStorageArea bareBrowserHost false = None ∧
  ¬ (∀ (h : Host) (st : StorageApi), onlyCarrier h st → hostStorage h = Some st).
Proof.
  assert (Hcarrier : onlyCarrier bareBrowserHost twoAreas) by (right; split; reflexivity).
  split; [exact Hcarrier |]. repeat (split; [reflexivity |]).
  intros Hclaim. specialize (Hclaim bareBrowserHost twoAreas Hcarrier).
  discriminate Hclaim.
Qed.

(** ** Saving *)

(** C5.  Whatever the controls show, the payload [save] builds and hands
    to [storageSet] has exactly the five settings as its properties,
    [skipKey] a string (the value of the select) and the four flags booleans
    (the state of the checkboxes), with [tempChatEnabled] equal to
    [autoTempChat].  [save] ends as [storageSet] on that payload ends and
    makes the calls it makes: on a host with an area the first of them is a
    [set] of that very payload, and every call [save] makes is one. *)
Theorem save_payload (h : Host) (w : World) :
  let p := page w in
  let payload :=
    savePayload (value (selectEl p)) (checked (holdEl p))
      (checked (autoExpandEl p)) (checked (autoTempChatEl p)) in
  dom payload = settingsKeys ∧
  payload !! "skipKey" = Some (VString (value (selectEl p))) ∧
  payload !! "holdToSend" = Some (VBool (checked (holdEl p))) ∧
  payload !! "autoExpandChats" = Some (VBool (checked (autoExpandEl p))) ∧
  payload !! "autoTempChat" = Some (VBool (checked (autoTempChatEl p))) ∧
  payload !! "tempChatEnabled" = Some (VBool (checked (autoTempChatEl p))) ∧
  payload !! "tempChatEnabled" = payload !! "autoTempChat" ∧
  (∃ areas,
     calls (save h w).2 = (calls w ++ map (λ area, CallSet area payload) areas)%list) ∧
  (save h w).1 = (storageSet h payload w).1 ∧
  calls (save h w).2 = calls (storageSet h payload w).2 ∧
  match getStorageArea h true with
  | Some area =>
      ∃ rest, calls (save h w).2 = (calls w ++ CallSet area payload :: rest)%list
  | None => calls (save h w).2 = calls w
  end.
Proof.
  intros p payload.
  assert (Hpayload : payload = settingsRecord
            (mkSettings (value (selectEl p)) (checked (holdEl p))
               (checked (autoExpandEl p)) (checked (autoTempChatEl p))
               (checked (autoTempChatEl p)))) by reflexivity.
  split; [rewrite Hpayload; apply settingsRecord_dom |].
  split; [rewrite Hpayload; apply settingsRecord_skipKey |].
  split; [rewrite Hpayload; apply settingsRecord_holdToSend |].
  split; [rewrite Hpayload; apply settingsRecord_autoExpandChats |].
  split; [rewrite Hpayload; apply settingsRecord_autoTempChat |].
  split; [rewrite Hpayload; apply settingsRecord_tempChatEnabled |].
  split.
  { rewrite Hpayload.
    by rewrite settingsRecord_tempChatEnabled, settingsRecord_autoTempChat. }
  assert (Hsave : (save h w).1 = (storageSet h payload w).1 ∧
                  calls (save h w).2 = calls (storageSet h payload w).2).
  { unfold save, mbind, Async_bind, getPage. fold p.
    rewrite !negb_involutive. fold payload.
    by destruct (storageSet h payload w) as [[[] | e |] w']. }
  destruct Hsave as [Houtcome Hcalls].
  destruct (storageSet_calls h payload w) as [areas Hareas].
  split; [exists areas; by rewrite Hcalls, Hareas |].
  split; [exact Houtcome |]. split; [exact Hcalls |].
  rewrite Hcalls, storageSet_cases.
  destruct (getStorageArea h true) as [area|] eqn:Harea.
  - destruct (trySet h payload area w) as [[[] | e |] w'] eqn:Hset;
      (assert (Hw' : w' = mkWorld (page w) (calls w ++ [CallSet area payload]))
         by (by rewrite <- (trySet_world h payload area w), Hset)); subst w'.
    + by exists [].
    + destruct (getStorageArea h false) as [area'|]; simpl.
      * exists [CallSet area' payload]. by rewrite <- app_assoc.
      * by exists [].
    + by exists [].
  - by rewrite (getStorageArea_true_None h Harea).
Qed.

Example save_on_chromiumHost :
  save chromiumHost filledWorld
  = (Fulfilled tt,
     mkWorld
       (setHint "Ctrl" true filledPage)
       [CallSet syncArea (savePayload "Ctrl" true false true)]).
Proof. reflexivity. Qed.

(** ** Loading *)

Lemma load_cases (h : Host) (w : World) :
  load h w =
    match storageGet h (settingsRecord SETTINGS_DEFAULTS) w with
    | (Fulfilled data, w') =>
        (Fulfilled tt,
         mkWorld (shown (normalizeSettings (RawRecord data)) (page w')) (calls w'))
    | (Rejected e, w') => (Rejected e, w')
    | (Pending, w') => (Pending, w')
    end.
Proof.
  unfold load, mbind, Async_bind.
  destruct (storageGet h (settingsRecord SETTINGS_DEFAULTS) w) as [[data | e |] w'];
    reflexivity.
Qed.

(** C8.  When the storage read gives exactly [{skipKey: "Alt", holdToSend:
    true}], [load] ends with the select on Alt, hold-to-send checked,
    auto-expand checked (its default), auto-temp-chat unchecked (its
    default), and the hint for a key that must be held. *)
Theorem load_end_to_end (h : Host) (w w' : World) :
  storageGet h (settingsRecord SETTINGS_DEFAULTS) w = (Fulfilled storedAlt, w') →
  ∃ w'', load h w = (Fulfilled tt, w'') ∧
    calls w'' = calls w' ∧
    value (selectEl (page w'')) = "Alt" ∧
    checked (holdEl (page w'')) = true ∧
    checked (autoExpandEl (page w'')) = true ∧
    checked (autoTempChatEl (page w'')) = false ∧
    textContent (hintEl (page w''))
    = "Auto-send happens only while holding Alt when you accept dictation.".
Proof.
  intros Hget. rewrite load_cases, Hget.
  eexists. split; [reflexivity |]. by repeat split.
Qed.

Lemma load_end_to_end_witness :
  storageGet chromiumHost (settingsRecord SETTINGS_DEFAULTS) blankWorld
  = (Fulfilled storedAlt,
     mkWorld blankPage [CallGet syncArea (settingsRecord SETTINGS_DEFAULTS)]) ∧
  ∃ w'', load chromiumHost blankWorld = (Fulfilled tt, w'') ∧
    calls w'' = [CallGet syncArea (settingsRecord SETTINGS_DEFAULTS)] ∧
    value (selectEl (page w'')) = "Alt" ∧
    checked (holdEl (page w'')) = true ∧
    checked (autoExpandEl (page w'')) = true ∧
    checked (autoTempChatEl (page w'')) = false ∧
    textContent (hintEl (page w''))
    = "Auto-send happens only while holding Alt when you accept dictation.".
Proof.
  assert (Hget : storageGet chromiumHost (settingsRecord SETTINGS_DEFAULTS) blankWorld
                 = (Fulfilled storedAlt,
                    mkWorld blankPage [CallGet syncArea (settingsRecord SETTINGS_DEFAULTS)]))
    by reflexivity.
  split; [exact Hget |].
  exact (load_end_to_end chromiumHost blankWorld _ Hget).
Defined.

Lemma getElements_fail_fast_witness :
  ((∃ id, id ∈ requiredIds ∧ brokenDocument !! id = None) ∧
   ∃ id, id ∈ requiredIds ∧ brokenDocument !! id = None ∧
     getElements brokenDocument = Throw (VError ("Missing element: " ++ id)) ∧
     main chromiumHost brokenDocument = Throw (VError ("Missing element: " ++ id))) ∧
  ((∀ id, id ∈ requiredIds → is_Some (fullDocument !! id)) ∧
   ∃ p, getElements fullDocument = Normal p ∧
     ∃ r, main chromiumHost fullDocument = Normal r).
Proof.
  split.
  - assert (Hmissing : ∃ id, id ∈ requiredIds ∧ brokenDocument !! id = None).
    { exists "holdToSend". split; [in_required | reflexivity]. }
    split; [exact Hmissing |].
    exact (proj1 (getElements_fail_fast chromiumHost brokenDocument) Hmissing).
  - assert (Hall : ∀ id, id ∈ requiredIds → is_Some (fullDocument !! id)).
    { intros id Hin. unfold requiredIds in Hin.
      repeat (apply elem_of_cons in Hin as [-> | Hin]; [by eexists |]).
      by apply elem_of_nil in Hin. }
    split; [exact Hall |].
    destruct (proj2 (getElements_fail_fast chromiumHost fullDocument) Hall)
      as (p & Hp & _ & _ & _ & _ & _ & Hmain).
    exists p. split; [exact Hp | exact Hmain].
Defined.

Example main_on_fullDocument :
  ∃ w, main chromiumHost fullDocument = Normal (Fulfilled tt, w) ∧
    value (selectEl (page w)) = "Alt" ∧
    textContent (hintEl (page w))
    = "Auto-send happens only while holding Alt when you accept dictation.".
Proof. eexists. split; [reflexivity |]. split; reflexivity. Qed.

Example main_on_failingHost :
  main failingHost fullDocument
  = Normal (Fulfilled tt,
            mkWorld blankPage
              [CallGet syncArea (settingsRecord SETTINGS_DEFAULTS);
               CallGet localArea (settingsRecord SETTINGS_DEFAULTS)]).
Proof. reflexivity. Qed.

(** * Further properties *)

(** ** A promise settles once *)

Lemma settleOnce_settled {R : Type} (state new : Outcome R) :
  state ≠ Pending → settleOnce state new = state.
Proof. by destruct state. Qed.

Lemma foldl_settleOnce_settled {R E : Type} (f : E → Outcome R)
    (state : Outcome R) (evs : list E) :
  state ≠ Pending → foldl (λ st ev, settleOnce st (f ev)) state evs = state.
Proof.
  revert state. induction evs as [| ev evs IH]; intros state Hstate; simpl.
  - reflexivity.
  - rewrite (settleOnce_settled state (f ev) Hstate). by apply IH.
Qed.

Lemma completion_settled {R : Type} (h : Host) (fallback : string) (c : R * JsVal) :
  completion h fallback c ≠ Pending.
Proof. unfold completion. by destruct (truthy (readLastError h c.2)). Qed.

Lemma foldl_onEvent {R : Type} (h : Host) (fallback : string) (thenable : bool)
    (evs : list (HostEvent R)) :
  foldl (λ st ev, settleOnce st (onEvent h fallback thenable ev)) Pending evs
  = settle h fallback (firstEvent thenable evs).
Proof.
  induction evs as [| ev evs IH]; simpl; [reflexivity |].
  destruct ev as [res lastError | res | e]; simpl.
  - exact (foldl_settleOnce_settled (onEvent h fallback thenable)
             (completion h fallback (res, lastError)) evs
             (completion_settled h fallback (res, lastError))).
  - destruct thenable; [| exact IH]. by apply foldl_settleOnce_settled.
  - destruct thenable; [| exact IH]. by apply foldl_settleOnce_settled.
Qed.

(** X1.  The promise of one attempt is decided by the first thing the host
    does that reaches [resolve] or [reject]: a run of the callback, the
    exception of the call, or, when the call returned a thenable, the
    thenable's first call of a handler.  Whatever comes later (a second run
    of the callback, an exception after the callback ran, a thenable settling
    after it) changes nothing, and what a returned value that is not a
    thenable would do is never heard. *)
Theorem executor_first_event {R : Type} (h : Host) (fallback : string) (a : Answer R) :
  executor h fallback a = settle h fallback (firstReply a).
Proof.
  unfold executor, firstReply.
  destruct (inside a) as [| [res lastError] rest]; simpl.
  - destruct (ending a) as [e | r]; [reflexivity |]. apply foldl_onEvent.
  - assert (Hfirst : completion h fallback (res, lastError) ≠ Pending)
      by apply completion_settled.
    rewrite (foldl_settleOnce_settled _ _ rest Hfirst).
    destruct (ending a) as [e | r].
    + by apply settleOnce_settled.
    + by apply foldl_settleOnce_settled.
Qed.

Example executor_callback_then_throw :
  executor chromiumHost "Storage get failed"
    (mkAnswer [(storedAlt, VUndefined)] (Throws (VError "late")) [])
  = Fulfilled storedAlt.
Proof. reflexivity. Qed.

Example executor_not_thenable :
  executor chromiumHost "Storage get failed"
    (mkAnswer [] (Returns (mkReturned VUndefined true))
       [CallsOnRejected (VError "unheard"); RunsCallback storedAlt VUndefined])
  = Fulfilled storedAlt.
Proof. reflexivity. Qed.

(** ** The calls a storage operation makes *)

(** X2.  [storageGet] never touches the page and only ever calls [get], with
    the keys it was given: no call when the host has no area, otherwise one
    call on the area of the first lookup, and a second one, on the area of
    the second lookup, only when the first was rejected. *)
Theorem storageGet_calls (h : Host) (keys : JsRecord) (w : World) :
  ∃ areas,
    (storageGet h keys w).2
    = mkWorld (page w) (calls w ++ map (λ area, CallGet area keys) areas) ∧
    match getStorageArea h true with
    | None => areas = []
    | Some area =>
        areas = [area] ∨
        ∃ area' e, getStorageArea h false = Some area' ∧
          (tryGet h keys area w).1 = Rejected e ∧ areas = [area; area']
    end.
Proof.
  rewrite storageGet_cases.
  destruct (getStorageArea h true) as [area|] eqn:Harea.
  - destruct (tryGet h keys area w) as [[res | e |] w'] eqn:Hget;
      (assert (Hw' : w' = mkWorld (page w) (calls w ++ [CallGet area keys]))
         by (by rewrite <- (tryGet_world h keys area w), Hget)); subst w'.
    + exists [area]. split; [reflexivity | by left].
    + destruct (getStorageArea h false) as [area'|]; simpl.
      * exists [area; area']. split; [by rewrite <- app_assoc |].
        right. by exists area', e.
      * exists [area]. split; [reflexivity | by left].
    + exists [area]. split; [reflexivity | by left].
  - rewrite (getStorageArea_true_None h Harea). exists []. simpl.
    rewrite app_nil_r. split; [by destruct w | reflexivity].
Qed.

(** X3.  [storageSet] writes at most twice, the same payload each time, and
    the second write, on the area of the second lookup, happens only after
    the first was rejected. *)
Theorem storageSet_writes (h : Host) (obj : JsRecord) (w : World) :
  ∃ areas,
    (storageSet h obj w).2
    = mkWorld (page w) (calls w ++ map (λ area, CallSet area obj) areas) ∧
    match getStorageArea h true with
    | None => areas = []
    | Some area =>
        areas = [area] ∨
        ∃ area' e, getStorageArea h false = Some area' ∧
          (trySet h obj area w).1 = Rejected e ∧ areas = [area; area']
    end.
Proof.
  rewrite storageSet_cases.
  destruct (getStorageArea h true) as [area|] eqn:Harea.
  - destruct (trySet h obj area w) as [[[] | e |] w'] eqn:Hset;
      (assert (Hw' : w' = mkWorld (page w) (calls w ++ [CallSet area obj]))
         by (by rewrite <- (trySet_world h obj area w), Hset)); subst w'.
    + exists [area]. split; [reflexivity | by left].
    + destruct (getStorageArea h false) as [area'|]; simpl.
      * exists [area; area']. split; [by rewrite <- app_assoc |].
        right. by exists area', e.
      * exists [area]. split; [reflexivity | by left].
    + exists [area]. split; [reflexivity | by left].
  - rewrite (getStorageArea_true_None h Harea). exists []. simpl.
    rewrite app_nil_r. split; [by destruct w | reflexivity].
Qed.

(** X4.  Nothing bounds the time an attempt may take: when the first
    attempt never settles, [storageGet] and [storageSet] never settle
    either, and the fallback area is not tried. *)
Theorem silent_area_blocks_fallback (h : Host) (area : StorageAreaLike) (w : World) :
  getStorageArea h true = Some area →
  (∀ keys, (tryGet h keys area w).1 = Pending →
     storageGet h keys w
     = (Pending, mkWorld (page w) (calls w ++ [CallGet area keys]))) ∧
  (∀ obj, (trySet h obj area w).1 = Pending →
     storageSet h obj w
     = (Pending, mkWorld (page w) (calls w ++ [CallSet area obj]))).
Proof.
  intros Harea. split.
  - intros keys Hpending. rewrite storageGet_cases, Harea.
    destruct (tryGet h keys area w) as [[res | e |] w'] eqn:Hget;
      simpl in Hpending; try discriminate.
    by rewrite <- (tryGet_world h keys area w), Hget.
  - intros obj Hpending. rewrite storageSet_cases, Harea.
    destruct (trySet h obj area w) as [[[] | e |] w'] eqn:Hset;
      simpl in Hpending; try discriminate.
    by rewrite <- (trySet_world h obj area w), Hset.
Qed.

Lemma silent_area_blocks_fallback_witness :
  getStorageArea silentSyncHost true = Some syncArea ∧
  getStorageArea silentSyncHost false = Some localArea ∧
  storageGet silentSyncHost ∅ blankWorld
  = (Pending, mkWorld blankPage [CallGet syncArea ∅]) ∧
  storageSet silentSyncHost storedAlt blankWorld
  = (Pending, mkWorld blankPage [CallSet syncArea storedAlt]).
Proof.
  assert (Harea : getStorageArea silentSyncHost true = Some syncArea) by reflexivity.
  destruct (silent_area_blocks_fallback silentSyncHost syncArea blankWorld Harea)
    as [Hget Hset].
  split; [exact Harea |]. split; [reflexivity |]. split.
  - exact (Hget ∅ eq_refl).
  - exact (Hset storedAlt eq_refl).
Defined.

(** X5.  A failed write on the synced area alone never surfaces:
    [storageSet] is rejected only when the host has a local area and the
    write on it, the last one, is rejected, and then with that failure. *)
Theorem storageSet_rejected_by_local (h : Host) (obj : JsRecord) (w : World) (e : JsVal) :
  (storageSet h obj w).1 = Rejected e →
  ∃ area' w', getStorageArea h false = Some area' ∧
    storageSet h obj w = trySet h obj area' w' ∧
    (trySet h obj area' w').1 = Rejected e.
Proof.
  rewrite storageSet_cases.
  destruct (getStorageArea h true) as [area|] eqn:Harea.
  - destruct (trySet h obj area w) as [[[] | e' |] w'] eqn:Hset;
      simpl; try discriminate.
    destruct (getStorageArea h false) as [area'|]; [| discriminate].
    intros Hrej. by exists area', w'.
  - rewrite (getStorageArea_true_None h Harea). discriminate.
Qed.

Lemma storageSet_rejected_by_local_witness :
  (storageSet failingHost storedAlt blankWorld).1 = Rejected (VError "Storage set failed") ∧
  ∃ area' w', getStorageArea failingHost false = Some area' ∧
    storageSet failingHost storedAlt blankWorld = trySet failingHost storedAlt area' w' ∧
    (trySet failingHost storedAlt area' w').1 = Rejected (VError "Storage set failed").
Proof.
  assert (H : (storageSet failingHost storedAlt blankWorld).1
              = Rejected (VError "Storage set failed")) by reflexivity.
  split; [exact H |].
  exact (storageSet_rejected_by_local failingHost storedAlt blankWorld _ H).
Defined.

(** ** Failures the code can and cannot see *)

Lemma readLastError_no_runtime (h : Host) (lastError : JsVal) :
  chrome h = None ∨ (∃ c, chrome h = Some c ∧ chrome_runtime c = false) →
  readLastError h lastError = VNull.
Proof.
  intros [Hnone | (c & Hc & Hruntime)]; unfold readLastError.
  - by rewrite Hnone.
  - by rewrite Hc, Hruntime.
Qed.

(** X6.  The only error signal of a callback completion is
    [chrome.runtime.lastError]: on a host whose [chrome] has no [runtime],
    an area that answers through the callback always counts as having
    succeeded, whatever error the host meant to report, so the read is
    fulfilled with the callback's result and the write is taken as done,
    each after a single call. *)
Theorem callback_without_runtime (h : Host) (c : ChromeGlobal)
    (area : StorageAreaLike) (w : World) :
  chrome h = Some c → chrome_runtime c = false →
  getStorageArea h true = Some area →
  (∀ keys res lastError,
     onGet h (calls w) area keys = ReplyCallback res lastError →
     storageGet h keys w
     = (Fulfilled res, mkWorld (page w) (calls w ++ [CallGet area keys]))) ∧
  (∀ obj lastError,
     onSet h (calls w) area obj = ReplyCallback tt lastError →
     storageSet h obj w
     = (Fulfilled tt, mkWorld (page w) (calls w ++ [CallSet area obj]))).
Proof.
  intros Hc Hruntime Harea.
  assert (Hno : chrome h = None ∨ (∃ c, chrome h = Some c ∧ chrome_runtime c = false))
    by (right; by exists c).
  split.
  - intros keys res lastError Hreply.
    rewrite storageGet_cases, Harea. unfold tryGet. rewrite Hreply. simpl.
    by rewrite (readLastError_no_runtime h lastError Hno).
  - intros obj lastError Hreply.
    rewrite storageSet_cases, Harea. unfold trySet. rewrite Hreply. simpl.
    by rewrite (readLastError_no_runtime h lastError Hno).
Qed.

Lemma callback_without_runtime_witness :
  chrome noRuntimeHost = Some (mkChrome false (Some twoAreas)) ∧
  getStorageArea noRuntimeHost true = Some syncArea ∧
  onGet noRuntimeHost [] syncArea ∅ = ReplyCallback storedAlt (VError "quota exceeded") ∧
  onSet noRuntimeHost [] syncArea storedAlt = ReplyCallback tt (VError "quota exceeded") ∧
  storageGet noRuntimeHost ∅ blankWorld
  = (Fulfilled storedAlt, mkWorld blankPage [CallGet syncArea ∅]) ∧
  storageSet noRuntimeHost storedAlt blankWorld
  = (Fulfilled tt, mkWorld blankPage [CallSet syncArea storedAlt]).
Proof.
  assert (Hchrome : chrome noRuntimeHost = Some (mkChrome false (Some twoAreas)))
    by reflexivity.
  assert (Harea : getStorageArea noRuntimeHost true = Some syncArea) by reflexivity.
  destruct (callback_without_runtime noRuntimeHost _ syncArea blankWorld
              Hchrome eq_refl Harea) as [Hget Hset].
  split; [exact Hchrome |]. split; [exact Harea |].
  split; [reflexivity |]. split; [reflexivity |]. split.
  - exact (Hget ∅ storedAlt (VError "quota exceeded") eq_refl).
  - exact (Hset storedAlt (VError "quota exceeded") eq_refl).
Defined.

Lemma madeError_toError (v : JsVal) (fallback : string) :
  madeError v (toError v fallback) fallback.
Proof.
  destruct v; simpl; try (right; split; [discriminate | reflexivity]).
  left. by eexists.
Qed.

Lemma readLastError_truthy (h : Host) (lastError : JsVal) :
  truthy (readLastError h lastError) = true →
  readLastError h lastError = lastError ∧ truthy lastError = true ∧
  ∃ c, chrome h = Some c ∧ chrome_runtime c = true.
Proof.
  unfold readLastError.
  destruct (chrome h) as [c|]; [| discriminate].
  destruct (chrome_runtime c) eqn:Hruntime; [| discriminate].
  destruct lastError; simpl; try discriminate; intros Htruthy;
    (split; [reflexivity | split; [exact Htruthy | by exists c]]).
Qed.

(** Where a rejection of one attempt comes from. *)
Lemma settle_rejected {R : Type} (h : Host) (fallback : string) (r : Reply R) (e : JsVal) :
  settle h fallback r = Rejected e →
  (∃ v, r = ReplyThrow v ∧ madeError v e fallback) ∨
  (∃ res v c, r = ReplyCallback res v ∧ chrome h = Some c ∧ chrome_runtime c = true ∧
     truthy v = true ∧ madeError v e fallback) ∨
  r = ReplyReject e.
Proof.
  destruct r as [res lastError | v | res | v |]; simpl; try discriminate.
  - destruct (truthy (readLastError h lastError)) eqn:Htruthy; [| discriminate].
    apply readLastError_truthy in Htruthy as (Hread & Htruthy & c & Hc & Hruntime).
    rewrite Hread. intros [= <-]. right. left.
    exists res, lastError, c. repeat split; try done. apply madeError_toError.
  - intros [= <-]. left. exists v. split; [reflexivity | apply madeError_toError].
  - intros [= <-]. by right; right.
Qed.

(** X7.  A rejection of [storageGet] is the rejection of its last attempt,
    on the local area, and its value is read off what the host did there.
    When the call threw [v], or completed through the callback with a truthy
    [v] in [chrome.runtime.lastError], the value is [v] itself if [v] is an
    [Error] and a fresh [Error("Storage get failed")] if it is anything else;
    when the thenable the call returned was rejected, the value is that
    rejection, unchanged, whatever it is. *)
Theorem storageGet_rejection_reason (h : Host) (keys : JsRecord) (w : World) (e : JsVal) :
  (storageGet h keys w).1 = Rejected e →
  ∃ area' w',
    getStorageArea h false = Some area' ∧
    storageGet h keys w = tryGet h keys area' w' ∧
    ((∃ v, onGet h (calls w') area' keys = ReplyThrow v ∧
        madeError v e "Storage get failed") ∨
     (∃ res v c, onGet h (calls w') area' keys = ReplyCallback res v ∧
        chrome h = Some c ∧ chrome_runtime c = true ∧ truthy v = true ∧
        madeError v e "Storage get failed") ∨
     onGet h (calls w') area' keys = ReplyReject e).
Proof.
  rewrite storageGet_cases.
  destruct (getStorageArea h true) as [area|] eqn:Harea.
  - destruct (tryGet h keys area w) as [[res | e' |] w'] eqn:Hget;
      simpl; try discriminate.
    destruct (getStorageArea h false) as [area'|]; [| discriminate].
    intros Hrej. exists area', w'. split; [reflexivity |]. split; [reflexivity |].
    unfold tryGet in Hrej. simpl in Hrej. by apply settle_rejected in Hrej.
  - rewrite (getStorageArea_true_None h Harea). discriminate.
Qed.

Lemma storageGet_rejection_reason_witness :
  ((storageGet throwingHost ∅ blankWorld).1 = Rejected (VError "host says no") ∧
   ∃ area' w',
     getStorageArea throwingHost false = Some area' ∧
     storageGet throwingHost ∅ blankWorld = tryGet throwingHost ∅ area' w' ∧
     ((∃ v, onGet throwingHost (calls w') area' ∅ = ReplyThrow v ∧
         madeError v (VError "host says no") "Storage get failed") ∨
      (∃ res v c, onGet throwingHost (calls w') area' ∅ = ReplyCallback res v ∧
         chrome throwingHost = Some c ∧ chrome_runtime c = true ∧ truthy v = true ∧
         madeError v (VError "host says no") "Storage get failed") ∨
      onGet throwingHost (calls w') area' ∅ = ReplyReject (VError "host says no"))) ∧
  ((storageGet plainErrorHost ∅ blankWorld).1 = Rejected (VError "Storage get failed") ∧
   ∃ area' w',
     getStorageArea plainErrorHost false = Some area' ∧
     storageGet plainErrorHost ∅ blankWorld = tryGet plainErrorHost ∅ area' w' ∧
     ((∃ v, onGet plainErrorHost (calls w') area' ∅ = ReplyThrow v ∧
         madeError v (VError "Storage get failed") "Storage get failed") ∨
      (∃ res v c, onGet plainErrorHost (calls w') area' ∅ = ReplyCallback res v ∧
         chrome plainErrorHost = Some c ∧ chrome_runtime c = true ∧ truthy v = true ∧
         madeError v (VError "Storage get failed") "Storage get failed") ∨
      onGet plainErrorHost (calls w') area' ∅
      = ReplyReject (VError "Storage get failed"))).
Proof.
  split.
  - assert (H : (storageGet throwingHost ∅ blankWorld).1
                = Rejected (VError "host says no")) by reflexivity.
    split; [exact H |].
    exact (storageGet_rejection_reason throwingHost ∅ blankWorld _ H).
  - assert (H : (storageGet plainErrorHost ∅ blankWorld).1
                = Rejected (VError "Storage get failed")) by reflexivity.
    split; [exact H |].
    exact (storageGet_rejection_reason plainErrorHost ∅ blankWorld _ H).
Defined.

Example storageGet_keeps_host_error :
  storageGet throwingHost ∅ blankWorld
  = (Rejected (VError "host says no"),
     mkWorld blankPage [CallGet syncArea ∅; CallGet localArea ∅]).
Proof. reflexivity. Qed.

(** ** The controller and the page *)

Lemma storageGet_page (h : Host) (keys : JsRecord) (w : World) :
  page (storageGet h keys w).2 = page w.
Proof.
  rewrite storageGet_cases.
  destruct (getStorageArea h true) as [area|].
  - destruct (tryGet h keys area w) as [[res | e |] w'] eqn:Hget;
      (assert (Hw' : page w' = page w)
         by (replace w' with (tryGet h keys area w).2 by (by rewrite Hget);
             reflexivity)); try done.
    by destruct (getStorageArea h false).
  - by destruct (getStorageArea h false).
Qed.

Lemma storageSet_page (h : Host) (obj : JsRecord) (w : World) :
  page (storageSet h obj w).2 = page w.
Proof.
  rewrite storageSet_cases.
  destruct (getStorageArea h true) as [area|].
  - destruct (trySet h obj area w) as [[[] | e |] w'] eqn:Hset;
      (assert (Hw' : page w' = page w)
         by (replace w' with (trySet h obj area w).2 by (by rewrite Hset);
             reflexivity)); try done.
    by destruct (getStorageArea h false).
  - by destruct (getStorageArea h false).
Qed.

Lemma save_cases (h : Host) (w : World) :
  let p := page w in
  let payload :=
    savePayload (value (selectEl p)) (checked (holdEl p))
      (checked (autoExpandEl p)) (checked (autoTempChatEl p)) in
  save h w =
    match storageSet h payload w with
    | (Fulfilled _, w') =>
        (Fulfilled tt,
         mkWorld (setHint (value (selectEl p)) (checked (holdEl p)) (page w')) (calls w'))
    | (Rejected e, w') => (Rejected e, w')
    | (Pending, w') => (Pending, w')
    end.
Proof.
  intros p payload. unfold save, mbind, Async_bind, getPage. fold p.
  rewrite !negb_involutive. fold payload.
  destruct (storageSet h payload w) as [[[] | e |] w']; reflexivity.
Qed.

(** X8.  [save] ends as its write ends.  It never changes a control, and it
    renews the hint, from the select and the hold-to-send checkbox as they
    were when it started, only once the write has succeeded: after a write
    that failed or that never ends the page is as it was, old hint
    included. *)
Theorem save_page (h : Host) (w : World) :
  let p := page w in
  let payload :=
    savePayload (value (selectEl p)) (checked (holdEl p))
      (checked (autoExpandEl p)) (checked (autoTempChatEl p)) in
  (save h w).1 = (storageSet h payload w).1 ∧
  calls (save h w).2 = calls (storageSet h payload w).2 ∧
  selectEl (page (save h w).2) = selectEl p ∧
  holdEl (page (save h w).2) = holdEl p ∧
  autoExpandEl (page (save h w).2) = autoExpandEl p ∧
  autoTempChatEl (page (save h w).2) = autoTempChatEl p ∧
  match (save h w).1 with
  | Fulfilled _ =>
      hintEl (page (save h w).2)
      = setTextContent (hintText (value (selectEl p)) (checked (holdEl p))) (hintEl p)
  | _ => page (save h w).2 = p
  end.
Proof.
  intros p payload.
  pose proof (save_cases h w) as Hsave. cbv zeta in Hsave. fold p payload in Hsave.
  pose proof (storageSet_page h payload w) as Hpage. fold p in Hpage.
  rewrite Hsave.
  destruct (storageSet h payload w) as [[[] | e |] w']; simpl in *;
    rewrite ?Hpage; by repeat split.
Qed.

(** X9.  Nothing the controller starts ever ends in a rejection: a change
    listener ends fulfilled whether its save succeeded or failed (and never
    ends when the save never does), leaving the page and the calls as the
    save left them; and once the five elements are found the module body
    does not throw, its first load ending the same way. *)
Theorem failures_swallowed (h : Host) :
  (∀ w,
     (onChange h w).1
     = match (save h w).1 with Pending => Pending | _ => Fulfilled tt end ∧
     (onChange h w).2 = (save h w).2) ∧
  (∀ document,
     main h document
     = match getElements document with
       | Throw e => Throw e
       | Normal p =>
           Normal (match (load h (mkWorld p [])).1 with
                   | Pending => Pending
                   | _ => Fulfilled tt
                   end,
                   (load h (mkWorld p [])).2)
       end).
Proof.
  split.
  - intros w. unfold onChange, swallow, tryCatch, mbind, Async_bind, mret, Async_ret.
    by destruct (save h w) as [[[] | e |] w'].
  - intros document. unfold main, mbind, Completion_bind, mret, Completion_ret.
    destruct (getElements document) as [p | e]; [| reflexivity].
    unfold swallow, tryCatch, mbind, Async_bind, mret, Async_ret.
    by destruct (load h (mkWorld p [])) as [[[] | e |] w'].
Qed.

(** X10.  [load] only reads: every call it makes is a [get] whose keys are
    the default settings, at most two of them.  It ends as its read ends,
    and when the read fails or never ends the page is exactly as it was. *)
Theorem load_reads_only (h : Host) (w : World) :
  let keys := settingsRecord SETTINGS_DEFAULTS in
  (load h w).1
  = match (storageGet h keys w).1 with
    | Fulfilled _ => Fulfilled tt
    | Rejected e => Rejected e
    | Pending => Pending
    end ∧
  (∃ areas, calls (load h w).2 = (calls w ++ map (λ area, CallGet area keys) areas)%list ∧
     (List.length areas ≤ 2)%nat) ∧
  match (load h w).1 with
  | Fulfilled _ => True
  | _ => page (load h w).2 = page w
  end.
Proof.
  intros keys. rewrite load_cases. fold keys.
  pose proof (storageGet_page h keys w) as Hpage.
  assert (Hcalls : ∃ areas,
            calls (storageGet h keys w).2
            = (calls w ++ map (λ area, CallGet area keys) areas)%list ∧ (List.length areas ≤ 2)%nat).
  { rewrite storageGet_cases.
    destruct (getStorageArea h true) as [area|] eqn:Harea.
    - destruct (tryGet h keys area w) as [[res | e |] w'] eqn:Hget;
        (assert (Hw' : w' = mkWorld (page w) (calls w ++ [CallGet area keys]))
           by (by rewrite <- (tryGet_world h keys area w), Hget)); subst w'.
      + exists [area]. simpl. split; [reflexivity | lia].
      + destruct (getStorageArea h false) as [area'|]; simpl.
        * exists [area; area']. simpl. split; [by rewrite <- app_assoc | lia].
        * exists [area]. simpl. split; [reflexivity | lia].
      + exists [area]. simpl. split; [reflexivity | lia].
    - rewrite (getStorageArea_true_None h Harea). exists []. simpl.
      rewrite app_nil_r. split; [reflexivity | lia]. }
  destruct (storageGet h keys w) as [[data | e |] w']; simpl in *; by repeat split.
Qed.

(** X11.  On a host without any storage area [load] makes no call and shows
    the defaults: Shift selected, hold-to-send off, auto-expand on,
    auto-temp-chat off, and the hint for skipping with Shift. *)
Theorem load_without_storage (h : Host) (w : World) :
  getStorageArea h true = None →
  load h w = (Fulfilled tt, mkWorld (shown SETTINGS_DEFAULTS (page w)) (calls w)) ∧
  value (selectEl (page (load h w).2)) = "Shift" ∧
  checked (holdEl (page (load h w).2)) = false ∧
  checked (autoExpandEl (page (load h w).2)) = true ∧
  checked (autoTempChatEl (page (load h w).2)) = false ∧
  textContent (hintEl (page (load h w).2))
  = "Hold Shift while accepting dictation to skip auto-send.".
Proof.
  intros Hnone.
  assert (Hload : load h w
            = (Fulfilled tt, mkWorld (shown SETTINGS_DEFAULTS (page w)) (calls w))).
  { rewrite load_cases, storageGet_cases, Hnone, (getStorageArea_true_None h Hnone).
    reflexivity. }
  rewrite Hload. by repeat split.
Qed.

Lemma load_without_storage_witness :
  getStorageArea noStorageHost true = None ∧
  load noStorageHost filledWorld
  = (Fulfilled tt, mkWorld (shown SETTINGS_DEFAULTS filledPage) []) ∧
  value (selectEl (page (load noStorageHost filledWorld).2)) = "Shift".
Proof.
  assert (Hnone : getStorageArea noStorageHost true = None) by reflexivity.
  destruct (load_without_storage noStorageHost filledWorld Hnone)
    as (Hload & Hvalue & _).
  split; [exact Hnone |]. split; [exact Hload | exact Hvalue].
Defined.

(** X12.  What [load] shows depends on four stored properties only:
    [skipKey], [holdToSend], [autoExpandChats] and [autoTempChat].  The
    stored [tempChatEnabled] and any other stored key are never shown: two
    reads that agree on the four leave the same page. *)
Theorem load_shows_four_properties (h1 h2 : Host) (w1 w2 w1' w2' : World)
    (data1 data2 : JsRecord) :
  page w1 = page w2 →
  storageGet h1 (settingsRecord SETTINGS_DEFAULTS) w1 = (Fulfilled data1, w1') →
  storageGet h2 (settingsRecord SETTINGS_DEFAULTS) w2 = (Fulfilled data2, w2') →
  prop data1 "skipKey" = prop data2 "skipKey" →
  prop data1 "holdToSend" = prop data2 "holdToSend" →
  prop data1 "autoExpandChats" = prop data2 "autoExpandChats" →
  prop data1 "autoTempChat" = prop data2 "autoTempChat" →
  page (load h1 w1).2 = page (load h2 w2).2.
Proof.
  intros Hpage Hget1 Hget2 Hk Hh He Ha.
  pose proof (storageGet_page h1 (settingsRecord SETTINGS_DEFAULTS) w1) as Hp1.
  pose proof (storageGet_page h2 (settingsRecord SETTINGS_DEFAULTS) w2) as Hp2.
  rewrite Hget1 in Hp1. rewrite Hget2 in Hp2. simpl in Hp1, Hp2.
  rewrite !load_cases, Hget1, Hget2. simpl.
  rewrite Hp1, Hp2, Hpage. unfold shown, normalizeSettings. simpl.
  by rewrite Hk, Hh, He, Ha.
Qed.

Lemma load_shows_four_properties_witness :
  (storageGet chromiumHost (settingsRecord SETTINGS_DEFAULTS) filledWorld).1
  = Fulfilled storedAlt ∧
  (storageGet otherVersionHost (settingsRecord SETTINGS_DEFAULTS) filledWorld).1
  = Fulfilled (<["tempChatEnabled" := VBool true]>
                 (<["theme" := VString "dark"]> storedAlt)) ∧
  page (load chromiumHost filledWorld).2 = page (load otherVersionHost filledWorld).2.
Proof.
  split; [reflexivity |]. split; [reflexivity |].
  exact (load_shows_four_properties chromiumHost otherVersionHost
           filledWorld filledWorld _ _ _ _
           eq_refl eq_refl eq_refl eq_refl eq_refl eq_refl eq_refl).
Defined.

Lemma setValue_same (el : Element) : setValue (value el) el = el.
Proof. by destruct el. Qed.

Lemma setChecked_same (el : Element) : setChecked (checked el) el = el.
Proof. by destruct el. Qed.

Lemma normalizeSettings_savePayload (k : string) (b e a : bool) :
  normalizeSettings (RawRecord (savePayload k b e a)) = mkSettings k b e a a.
Proof. exact (normalizeSettings_settingsRecord (mkSettings k b e a a)). Qed.

(** X13.  What [save] writes, [load] reads back into the same form: when a
    save has succeeded and the next read gives the payload it wrote, [load]
    leaves every control and the hint exactly as the save left them. *)
Theorem save_then_load (h : Host) (w w1 w2 : World) :
  save h w = (Fulfilled tt, w1) →
  storageGet h (settingsRecord SETTINGS_DEFAULTS) w1
  = (Fulfilled
       (savePayload (value (selectEl (page w))) (checked (holdEl (page w)))
          (checked (autoExpandEl (page w))) (checked (autoTempChatEl (page w)))),
     w2) →
  load h w1 = (Fulfilled tt, mkWorld (page w1) (calls w2)).
Proof.
  intros Hsave Hget.
  pose proof (save_cases h w) as Hcases. cbv zeta in Hcases.
  pose proof (storageSet_page h
                (savePayload (value (selectEl (page w))) (checked (holdEl (page w)))
                   (checked (autoExpandEl (page w))) (checked (autoTempChatEl (page w))))
                w) as Hpage.
  rewrite Hsave in Hcases.
  destruct (storageSet h _ w) as [[[] | e |] w'] eqn:Hset; try discriminate.
  simpl in Hpage. injection Hcases as ->. rewrite Hpage.
  pose proof (storageGet_page h (settingsRecord SETTINGS_DEFAULTS)
                (mkWorld (setHint (value (selectEl (page w))) (checked (holdEl (page w)))
                            (page w)) (calls w'))) as Hp2.
  rewrite Hpage in Hget. rewrite Hget in Hp2. simpl in Hp2.
  rewrite load_cases, Hget, normalizeSettings_savePayload, Hp2. simpl.
  unfold shown, setHint. simpl.
  by rewrite setValue_same, !setChecked_same.
Qed.

Lemma save_then_load_witness :
  let w1 := (save memoryHost filledWorld).2 in
  save memoryHost filledWorld = (Fulfilled tt, w1) ∧
  (storageGet memoryHost (settingsRecord SETTINGS_DEFAULTS) w1).1
  = Fulfilled (savePayload "Ctrl" true false true) ∧
  value (selectEl (page w1)) = "Ctrl" ∧
  textContent (hintEl (page w1))
  = "Auto-send happens only while holding Ctrl when you accept dictation." ∧
  page (load memoryHost w1).2 = page w1.
Proof.
  intros w1.
  assert (Hsave : save memoryHost filledWorld = (Fulfilled tt, w1)) by reflexivity.
  split; [exact Hsave |].
  split; [reflexivity |]. split; [reflexivity |]. split; [reflexivity |].
  rewrite (save_then_load memoryHost filledWorld w1 _ Hsave eq_refl).
  reflexivity.
Defined.

(** ** Which element is reported missing *)

(** X14.  The elements are looked up in a fixed order and the first one
    that is missing is the one the error names: every identifier before it
    in that order was found, and no later one was looked up. *)
Theorem getElements_first_missing (document : Document) (e : JsVal) :
  getElements document = Throw e →
  ∃ found id rest,
    requiredIds = (found ++ id :: rest)%list ∧
    Forall (λ x, is_Some (document !! x)) found ∧
    document !! id = None ∧
    e = VError ("Missing element: " ++ id).
Proof.
  unfold getElements, mustGetElement, mbind, Completion_bind, mret, Completion_ret.
  destruct (document !! "hint") as [e1|] eqn:H1.
  2: { intros [= <-]. exists [], "hint", ["skipKey"; "holdToSend"; "autoExpandChats"; "autoTempChat"].
       by repeat split. }
  destruct (document !! "skipKey") as [e2|] eqn:H2.
  2: { intros [= <-]. exists ["hint"], "skipKey", ["holdToSend"; "autoExpandChats"; "autoTempChat"].
       repeat split; try done. by repeat constructor. }
  destruct (document !! "holdToSend") as [e3|] eqn:H3.
  2: { intros [= <-]. exists ["hint"; "skipKey"], "holdToSend", ["autoExpandChats"; "autoTempChat"].
       repeat split; try done. by repeat constructor. }
  destruct (document !! "autoExpandChats") as [e4|] eqn:H4.
  2: { intros [= <-]. exists ["hint"; "skipKey"; "holdToSend"], "autoExpandChats", ["autoTempChat"].
       repeat split; try done. by repeat constructor. }
  destruct (document !! "autoTempChat") as [e5|] eqn:H5.
  2: { intros [= <-]. exists ["hint"; "skipKey"; "holdToSend"; "autoExpandChats"], "autoTempChat", [].
       repeat split; try done. by repeat constructor. }
  discriminate.
Qed.

Lemma getElements_first_missing_witness :
  sparseDocument !! "autoTempChat" = None ∧
  getElements sparseDocument = Throw (VError "Missing element: skipKey") ∧
  ∃ found id rest,
    requiredIds = (found ++ id :: rest)%list ∧
    Forall (λ x, is_Some (sparseDocument !! x)) found ∧
    sparseDocument !! id = None ∧
    VError "Missing element: skipKey" = VError ("Missing element: " ++ id).
Proof.
  assert (H : getElements sparseDocument = Throw (VError "Missing element: skipKey"))
    by reflexivity.
  split; [reflexivity |]. split; [exact H |].
  exact (getElements_first_missing sparseDocument _ H).
Defined.

(** ** The hint tells the settings apart *)

Lemma append_length (a b : string) :
  String.length (a ++ b) = (String.length a + String.length b)%nat.
Proof. induction a as [| x a IH]; simpl; [done | by rewrite IH]. Qed.

Lemma append_cancel_l (p a b : string) : p ++ a = p ++ b → a = b.
Proof.
  induction p as [| x p IH]; intros H.
  - exact H.
  - apply IH. by injection H.
Qed.

Lemma append_cancel_r (a b c : string) : a ++ c = b ++ c → a = b.
Proof.
  revert b. induction a as [| x a IH]; intros [| y b] H.
  - reflexivity.
  - exfalso. apply (f_equal String.length) in H.
    rewrite !append_length in H. simpl in H. lia.
  - exfalso. apply (f_equal String.length) in H.
    rewrite !append_length in H. simpl in H. lia.
  - injection H as -> H. f_equal. by apply IH.
Qed.

(** X15.  The hint never says the same thing for two different settings:
    from its text one can read back both the key and whether it must be
    held, whatever string the key is. *)
Theorem hintText_injective (k k' : string) (b b' : bool) :
  hintText k b = hintText k' b' → k = k' ∧ b = b'.
Proof.
  unfold hintText.
  destruct (String.eqb_spec k "None") as [-> | Hk],
           (String.eqb_spec k' "None") as [-> | Hk'];
    destruct b, b'; intros H; try done;
    try (exfalso; cbv in H; discriminate H).
  - apply append_cancel_l, append_cancel_r in H. by subst.
  - apply append_cancel_l, append_cancel_r in H. by subst.
Qed.

Lemma hintText_injective_witness :
  hintText "Alt" true = hintText "Alt" true ∧ "Alt" = "Alt" ∧ true = true.
Proof.
  split; [reflexivity |].
  exact (hintText_injective "Alt" "Alt" true true eq_refl).
Defined.
